(** * SalesforceEnhancedObjectSearch: content.js

    A shallow embedding of the enrichment, search and export core of
    [content.js], and the properties its specification states about it.

    Conventions of the model
    - A JavaScript string is a [string]; the model covers ASCII text, so
      [toLowerCase] and [toUpperCase] act on the letters A-Z / a-z and
      [trim] removes the ASCII white space characters.
    - A JavaScript number that counts something (a sheet-name suffix, a
      field length) is an [N]; the code only ever increments or prints it,
      and all values reached stay far below 2^53, where the arithmetic of
      doubles is exact.
    - DOM elements are records; a table body is the list of its rows and a
      row is identified by its position in that list.
    - [chrome.runtime.sendMessage] appends the message to the log of sent
      messages; the response arrives later as a separate step that runs
      the callback. *)

From Stdlib Require Import String Ascii List Bool Arith NArith ZArith Lia Sorted.
Import ListNotations.

Local Open Scope string_scope.

(* ------------------------------------------------------------------ *)
(** ** JavaScript string primitives                                     *)
(* ------------------------------------------------------------------ *)

Module Js.

(** [c.toLowerCase()] on one ASCII character. *)
Definition toLowerCase_char (c : ascii) : ascii :=
  let n := N_of_ascii c in
  if ((65 <=? n) && (n <=? 90))%N then ascii_of_N (n + 32) else c.

(** [c.toUpperCase()] on one ASCII character. *)
Definition toUpperCase_char (c : ascii) : ascii :=
  let n := N_of_ascii c in
  if ((97 <=? n) && (n <=? 122))%N then ascii_of_N (n - 32) else c.

(** [s.toLowerCase()] *)
Fixpoint toLowerCase (s : string) : string :=
  match s with
  | EmptyString => EmptyString
  | String c s' => String (toLowerCase_char c) (toLowerCase s')
  end.

(** [s.toUpperCase()] *)
Fixpoint toUpperCase (s : string) : string :=
  match s with
  | EmptyString => EmptyString
  | String c s' => String (toUpperCase_char c) (toUpperCase s')
  end.

(** White space removed by [trim]: tab, line feed, vertical tab, form
    feed, carriage return and space. *)
Definition isWhiteSpace (c : ascii) : bool :=
  let n := N_of_ascii c in
  ((9 <=? n) && (n <=? 13) || (n =? 32))%N.

Fixpoint trimStart (s : string) : string :=
  match s with
  | EmptyString => EmptyString
  | String c s' => if isWhiteSpace c then trimStart s' else s
  end.

Fixpoint trimEnd (s : string) : string :=
  match s with
  | EmptyString => EmptyString
  | String c s' =>
      match trimEnd s' with
      | EmptyString => if isWhiteSpace c then EmptyString else String c EmptyString
      | r => String c r
      end
  end.

(** [s.trim()] *)
Definition trim (s : string) : string := trimEnd (trimStart s).

(** [s.startsWith(q)] *)
Fixpoint startsWith (s q : string) {struct q} : bool :=
  match q, s with
  | EmptyString, _ => true
  | String _ _, EmptyString => false
  | String b q', String a s' => Ascii.eqb a b && startsWith s' q'
  end.

(** [s.includes(q)]: [q] occurs in [s] at some position. *)
Fixpoint includes (s q : string) : bool :=
  startsWith s q ||
  match s with
  | EmptyString => false
  | String _ s' => includes s' q
  end.

(** [s.endsWith(q)] *)
Fixpoint endsWith (s q : string) : bool :=
  String.eqb s q ||
  match s with
  | EmptyString => false
  | String _ s' => endsWith s' q
  end.

(** [s.substring(0, e)] for an integer [e]: a negative end counts as 0,
    an end beyond the string as its length. *)
Definition substring0 (e : Z) (s : string) : string :=
  String.substring 0 (Z.to_nat (Z.max 0 e)) s.

(** [s.charAt(0)]: the first character as a string, or the empty string. *)
Definition charAt0 (s : string) : string :=
  match s with
  | EmptyString => EmptyString
  | String c _ => String c EmptyString
  end.

(** [s.slice(1)] *)
Definition slice1 (s : string) : string :=
  match s with
  | EmptyString => EmptyString
  | String _ s' => s'
  end.

(** The character of a decimal digit [d < 10]. *)
Definition digitChar (d : N) : ascii := ascii_of_N (48 + d).

(** Decimal digits of [n], most significant first; [fuel] bounds the
    number of digits produced. *)
Fixpoint digits (fuel : nat) (n : N) : string :=
  match fuel with
  | O => EmptyString
  | S fuel' =>
      if (n <? 10)%N then String (digitChar n) EmptyString
      else digits fuel' (n / 10)%N ++ String (digitChar (n mod 10)%N) EmptyString
  end.

(** [n.toString()] for a non-negative integer [n]: a number of [b] bits
    has at most [b] decimal digits. *)
Definition toString (n : N) : string := digits (S (N.to_nat (N.size n))) n.

(** [parseInt]-like value of a string of decimal digits (used to state
    that [toString] is faithful). *)
Fixpoint valueOf (acc : N) (s : string) : N :=
  match s with
  | EmptyString => acc
  | String c s' => valueOf (10 * acc + (N_of_ascii c - 48))%N s'
  end.

End Js.

(* ------------------------------------------------------------------ *)
(** ** Field-type mapping (lines 310-321)                               *)
(* ------------------------------------------------------------------ *)

(** [fieldLength || 500]: an absent length and the length 0 are falsy. *)
Definition lengthOrDefault (fieldLength : option N) : N :=
  match fieldLength with
  | Some n => if (n =? 0)%N then 500%N else n
  | None => 500%N
  end.

(** [mapFieldTypeForExport(fieldType, fieldLength)].  [fieldLength] is
    [None] when the caller passes [undefined] or [null]. *)
Definition mapFieldTypeForExport (fieldType : string) (fieldLength : option N) : string :=
  let t := Js.toLowerCase fieldType in
  if String.eqb t "reference" then "Lookup(User)"
  else if String.eqb t "double" then "Number(4,0)"
  else if String.eqb t "string" then
    "Text(" ++ Js.toString (lengthOrDefault fieldLength) ++ ")"
  else Js.toUpperCase (Js.charAt0 fieldType) ++ Js.slice1 fieldType.

(* ------------------------------------------------------------------ *)
(** ** The page: rows, console and message channel                      *)
(* ------------------------------------------------------------------ *)

(** A [<tr>] of the field table.  [cells] holds the [innerText] of its
    [<td>] children, [picklistText] and [picklistFetched] are the two
    entries of [row.dataset] ([None] while unset), [display] is
    [row.style.display] and [title] the [title] attribute of the first
    cell. *)
Record Row := mkRow {
  cells : list string;
  picklistText : option string;
  picklistFetched : option string;
  display : string;
  title : option string
}.

Definition cell (i : nat) (r : Row) : string := nth i (cells r) "".

Definition set_display (d : string) (r : Row) : Row :=
  mkRow (cells r) (picklistText r) (picklistFetched r) d (title r).

Definition set_picklistText (t : string) (r : Row) : Row :=
  mkRow (cells r) (Some t) (picklistFetched r) (display r) (title r).

Definition set_picklistFetched (v : string) (r : Row) : Row :=
  mkRow (cells r) (picklistText r) (Some v) (display r) (title r).

(** [labelCell.setAttribute("title", t)] / [removeAttribute("title")] on
    [row.querySelector("td")], when the row has a cell at all. *)
Definition set_title (t : option string) (r : Row) : Row :=
  match cells r with
  | [] => r
  | _ :: _ => mkRow (cells r) (picklistText r) (picklistFetched r) (display r) t
  end.

(** Messages sent through [chrome.runtime.sendMessage]. *)
Inductive Message :=
| fetchPicklistValues (objectName fieldApiName origin : string) (isStandard : bool)
| fetchCustomObjectApiName (objectId origin : string)
| fetchObjectDescribe (objectApiName origin : string).

(** What a response callback closes over. *)
Inductive Callback :=
| picklistCallback (row : nat) (fieldApiName : string)
| resolveCallback.

Inductive LogEntry :=
| console_log (text : string)
| console_error (text : string) (detail : option string).

Record Page := mkPage {
  origin : string;                       (* window.location.origin *)
  urlIdentifier : option string;         (* decoded match[1] of the pathname *)
  tableBody : option (list Row);         (* document.querySelector("table tbody") *)
  customQuickFind : option string;       (* value of #customQuickFind, if present *)
  sent : list (Message * Callback);      (* every message sent so far *)
  pending : list (Message * Callback);   (* messages not yet answered *)
  console : list LogEntry
}.

Definition set_tableBody (tb : option (list Row)) (p : Page) : Page :=
  mkPage (origin p) (urlIdentifier p) tb (customQuickFind p) (sent p) (pending p) (console p).

(** A message whose response is awaited on the spot: it is logged as
    sent and is answered by the time the caller resumes. *)
Definition sendAndAwait (m : Message) (k : Callback) (p : Page) : Page :=
  mkPage (origin p) (urlIdentifier p) (tableBody p) (customQuickFind p)
         (sent p ++ [(m, k)]) (pending p) (console p).

Definition write_console (e : LogEntry) (p : Page) : Page :=
  mkPage (origin p) (urlIdentifier p) (tableBody p) (customQuickFind p)
         (sent p) (pending p) (console p ++ [e]).

(** The run-time removes an answered message from the outstanding ones. *)
Fixpoint remove_pending (row : nat) (l : list (Message * Callback)) : list (Message * Callback) :=
  match l with
  | [] => []
  | (m, picklistCallback r f) :: l' =>
      if Nat.eqb r row then l' else (m, picklistCallback r f) :: remove_pending row l'
  | mk :: l' => mk :: remove_pending row l'
  end.

Definition answered (row : nat) (p : Page) : Page :=
  mkPage (origin p) (urlIdentifier p) (tableBody p) (customQuickFind p)
         (sent p) (remove_pending row (pending p)) (console p).

(** Update the row at position [i], leaving a shorter list as it is. *)
Fixpoint update_row (i : nat) (f : Row -> Row) (rows : list Row) {struct rows} : list Row :=
  match rows, i with
  | [], _ => []
  | r :: rows', O => f r :: rows'
  | r :: rows', S i' => r :: update_row i' f rows'
  end.

(** A completed call either returns a value or throws. *)
Inductive Completion (A : Type) :=
| Returned (a : A)
| Thrown.
Arguments Returned {A} a.
Arguments Thrown {A}.

(** Responses of the metadata provider; [None] stands for a callback
    invoked with [undefined]. *)
Record ResolveResponse := mkResolve {
  resolve_success : bool;
  resolve_apiName : string;
  resolve_error : option string
}.

Record PicklistResponse := mkPicklist {
  picklist_success : bool;
  picklist_data : option string;         (* response.data.picklistText *)
  picklist_error : option string
}.

(* ------------------------------------------------------------------ *)
(** ** Quick Find (lines 161-183)                                       *)
(* ------------------------------------------------------------------ *)

Definition isAlnum (c : ascii) : bool :=
  let n := N_of_ascii c in
  ((48 <=? n) && (n <=? 57) || (65 <=? n) && (n <=? 90) || (97 <=? n) && (n <=? 122))%N.

Fixpoint allChars (f : ascii -> bool) (s : string) : bool :=
  match s with
  | EmptyString => true
  | String c s' => f c && allChars f s'
  end.

(** [/^[a-zA-Z0-9]{15,18}$/.test(identifier)] *)
Definition isSalesforceId (identifier : string) : bool :=
  (15 <=? String.length identifier)%nat && (String.length identifier <=? 18)%nat
  && allChars isAlnum identifier.

(** [row.dataset.picklistText ? row.dataset.picklistText : ""]: what the
    search filter and the export read as the row's picklist annotation. *)
Definition annotation (r : Row) : string :=
  match picklistText r with
  | Some t => t
  | None => ""
  end.

(** The body of the [forEach] of [onQuickFindInput] for a row with at
    least three cells: the value stored in [row.style.display]. *)
Definition rowDisplay (query : string) (row : Row) : string :=
  let fieldLabel := Js.toLowerCase (cell 0 row) in
  let apiName := Js.toLowerCase (cell 1 row) in
  let fieldType := Js.toLowerCase (cell 2 row) in
  let picklistText := Js.toLowerCase (annotation row) in
  let combined := fieldLabel ++ " " ++ picklistText in
  if String.eqb query "" || Js.includes combined query
     || Js.includes apiName query || Js.includes fieldType query
  then "" else "none".

Definition filterRow (query : string) (row : Row) : Row :=
  if (List.length (cells row) <? 3)%nat then row
  else set_display (rowDisplay query row) row.

(** [onQuickFindInput({target: {value}})] *)
Definition onQuickFindInput (value : string) (p : Page) : Page :=
  let query := Js.toLowerCase (Js.trim value) in
  match tableBody p with
  | None => p
  | Some rows => set_tableBody (Some (map (filterRow query) rows)) p
  end.

(** A row is shown when its [display] is not ["none"]. *)
Definition visible (r : Row) : bool := negb (String.eqb (display r) "none").

(* ------------------------------------------------------------------ *)
(** ** Picklist enrichment (lines 79-99 and 189-247)                    *)
(* ------------------------------------------------------------------ *)

(** [getObjectApiNameFromURL()].  [response] is what the provider answers
    if the identifier is a record id and has to be resolved. *)
Definition getObjectApiNameFromURL (response : option ResolveResponse) (p : Page)
  : Completion (option string) * Page :=
  match urlIdentifier p with
  | None => (Returned None, p)
  | Some identifier =>
      if isSalesforceId identifier then
        let p2 := sendAndAwait (fetchCustomObjectApiName identifier (origin p)) resolveCallback p in
        match response with
        | Some r =>
            if resolve_success r then (Returned (Some (resolve_apiName r)), p2)
            else (Returned None,
                  write_console (console_error "Failed to fetch custom object API name:"
                                               (resolve_error r)) p2)
        | None => (Thrown, p2)           (* response.error of undefined *)
        end
      else (Returned (Some identifier), p)
  end.

(** [fetchPicklistValuesViaBackground(row, objectName, fieldApiName, isStandard)]:
    the request is sent; its callback is [onPicklistResponse] below. *)
Definition fetchPicklistValuesViaBackground
  (row : nat) (objectName fieldApiName : string) (isStandard : bool) (origin : string)
  : Message * Callback :=
  (fetchPicklistValues objectName fieldApiName origin isStandard,
   picklistCallback row fieldApiName).

(** The response callback of [fetchPicklistValuesViaBackground]
    (lines 199-213), run when the provider answers the request for [row]. *)
Definition onPicklistResponse
  (row : nat) (fieldApiName : string) (response : option PicklistResponse) (p : Page) : Page :=
  let p := answered row p in
  match response with
  | Some (mkPicklist true data _) =>
      let picklistText := match data with Some t => t | None => "" end in
      let p1 :=
        match tableBody p with
        | Some rows =>
            set_tableBody
              (Some (update_row row
                       (fun r => set_title (Some picklistText) (set_picklistText picklistText r))
                       rows)) p
        | None => p
        end in
      let p2 := write_console
                  (console_log ("Fetched picklist for " ++ fieldApiName ++ ": " ++ picklistText))
                  p1 in
      match customQuickFind p2 with
      | Some value => onQuickFindInput value p2
      | None => p2
      end
  | Some (mkPicklist false _ err) =>
      write_console (console_error "Error fetching picklist values:" err) p
  | None =>
      write_console (console_error "Error fetching picklist values:" None) p
  end.

(** [row.dataset.picklistFetched === "true"] *)
Definition isFetched (row : Row) : bool :=
  match picklistFetched row with
  | Some v => String.eqb v "true"
  | None => false
  end.

(** The body of the [forEach] of [processPicklistRows] (lines 228-246):
    the row as it is left, and the request sent for it, if any. *)
Definition processRow (objectName origin : string) (i : nat) (row : Row)
  : Row * list (Message * Callback) :=
  if isFetched row then (row, [])
  else if (List.length (cells row) <? 3)%nat then (row, [])
  else
    let fieldType := Js.toLowerCase (cell 2 row) in
    let fieldApiName := Js.trim (cell 1 row) in
    let isStandard := negb (Js.endsWith fieldApiName "__c") in
    if Js.includes fieldType "picklist" then
      (set_picklistFetched "true" row,
       [fetchPicklistValuesViaBackground i objectName fieldApiName isStandard origin])
    else
      (set_picklistFetched "true" (set_title None (set_picklistText "" row)), []).

(** How many requests the body of the loop sends for a row. *)
Definition requested (row : Row) : nat :=
  if isFetched row then 0%nat
  else if (List.length (cells row) <? 3)%nat then 0%nat
  else if Js.includes (Js.toLowerCase (cell 2 row)) "picklist" then 1%nat else 0%nat.

(** [rows.forEach(...)], rows numbered from [i]. *)
Fixpoint processRows (objectName origin : string) (i : nat) (rows : list Row)
  : list Row * list (Message * Callback) :=
  match rows with
  | [] => ([], [])
  | row :: rest =>
      let (row', msgs) := processRow objectName origin i row in
      let (rest', msgs') := processRows objectName origin (S i) rest in
      (row' :: rest', (msgs ++ msgs')%list)
  end.

(** Lines 227-246: what [processPicklistRows] does once the object name
    is known. *)
Definition processPicklistRows_forEach (objectName : string) (p : Page) : Page :=
  match tableBody p with
  | None => p
  | Some rows =>
      let (rows', msgs) := processRows objectName (origin p) 0 rows in
      mkPage (origin p) (urlIdentifier p) (Some rows') (customQuickFind p)
             (sent p ++ msgs) (pending p ++ msgs) (console p)
  end.

(** [processPicklistRows()]; [response] answers the resolution request of
    [getObjectApiNameFromURL], when one is made. *)
Definition processPicklistRows (response : option ResolveResponse) (p : Page) : Page :=
  match tableBody p with
  | None => p
  | Some _ =>
      match getObjectApiNameFromURL response p with
      | (Thrown, p1) => p1
      | (Returned None, p1) =>
          write_console (console_error "Could not determine object name." None) p1
      | (Returned (Some name), p1) =>
          if String.eqb name "" then
            write_console (console_error "Could not determine object name." None) p1
          else processPicklistRows_forEach name p1
      end
  end.

(** The requests whose callback closes over the row at position [row]. *)
Definition isRequestFor (row : nat) (mk : Message * Callback) : bool :=
  match mk with
  | (_, picklistCallback r _) => Nat.eqb r row
  | _ => false
  end.

Definition requestsFor (row : nat) (p : Page) : nat :=
  List.length (filter (isRequestFor row) (sent p)).

(** The state of the enrichment of a row, as the specification names it:
    the code keeps the flag [picklistFetched], and a row whose flag is set
    is in flight while its request is outstanding. *)
Inductive Status := unprocessed | in_flight | done.

Definition status (row : nat) (p : Page) : option Status :=
  match tableBody p with
  | None => None
  | Some rows =>
      match nth_error rows row with
      | None => None
      | Some r =>
          if isFetched r then
            if existsb (isRequestFor row) (pending p) then Some in_flight else Some done
          else Some unprocessed
      end
  end.

(** The object name a pass works with, when it gets as far as the rows
    (lines 221-225). *)
Definition objectNameOf (response : option ResolveResponse) (p : Page) : option string :=
  match getObjectApiNameFromURL response p with
  | (Returned (Some name), _) => if String.eqb name "" then None else Some name
  | _ => None
  end.

(** A row as the host page renders it: nothing in its [dataset]. *)
Definition fresh (r : Row) : Prop :=
  picklistText r = None /\ picklistFetched r = None.

(** The events of a detail page.  The user types into the Quick Find
    box, the host page renders further rows at the end of the table, a
    pass of [processPicklistRows] runs (at initialisation and from the
    mutation observer), and the provider answers an outstanding request. *)
Inductive event : Page -> Page -> Prop :=
| ev_input value p :
    customQuickFind p <> None ->
    event p (onQuickFindInput value
               (mkPage (origin p) (urlIdentifier p) (tableBody p) (Some value)
                       (sent p) (pending p) (console p)))
| ev_render rows more p :
    tableBody p = Some rows -> Forall fresh more ->
    event p (set_tableBody (Some (rows ++ more)%list) p)
| ev_process response p :
    event p (processPicklistRows response p)
| ev_response m row fieldApiName response p :
    In (m, picklistCallback row fieldApiName) (pending p) ->
    event p (onPicklistResponse row fieldApiName response p).

(** A page as it is when the script starts: rows as rendered, nothing
    sent. *)
Definition initial (p : Page) : Prop :=
  sent p = [] /\ pending p = [] /\
  match tableBody p with
  | Some rows => Forall fresh rows
  | None => True
  end.

Inductive reachable : Page -> Prop :=
| reach_initial p : initial p -> reachable p
| reach_event p q : reachable p -> event p q -> reachable q.

(** The row at position [i] of the table of a page. *)
Definition rowAt (i : nat) (p : Page) : option Row :=
  match tableBody p with
  | Some rows => nth_error rows i
  | None => None
  end.

(** What holds of every page the events lead to: a row has at most one
    request outstanding; an unprocessed row has neither an annotation nor
    a request; a row with an outstanding request is marked as fetched and
    has no annotation yet. *)
Definition consistent (p : Page) : Prop :=
  forall i,
    (List.length (filter (isRequestFor i) (pending p)) <= 1)%nat /\
    (forall row, rowAt i p = Some row -> isFetched row = false ->
                 picklistText row = None /\ filter (isRequestFor i) (pending p) = []) /\
    (filter (isRequestFor i) (pending p) <> [] ->
     exists row, rowAt i p = Some row /\ isFetched row = true /\ picklistText row = None).

(** A response that is not [response && response.success]. *)
Definition failed (response : option PicklistResponse) : bool :=
  match response with
  | Some r => negb (picklist_success r)
  | None => true
  end.

(** [response && response.error], the second argument of [console.error]. *)
Definition errorOf (response : option PicklistResponse) : option string :=
  match response with
  | Some r => picklist_error r
  | None => None
  end.

(** Search as the specification words it: [text] contains [query],
    compared without regard to case. *)
Definition containsCI (text query : string) : bool :=
  Js.includes (Js.toLowerCase text) (Js.toLowerCase query).

(** A row is found by [query] as the specification words it: the query
    is empty, or the label and annotation joined by a space, the API name
    or the type text contains it. *)
Definition found (query : string) (row : Row) : Prop :=
  query = "" \/
  containsCI (cell 0 row ++ " " ++ annotation row) query = true \/
  containsCI (cell 1 row) query = true \/
  containsCI (cell 2 row) query = true.

(** The condition of lines 176-179, as a predicate of the row and the
    query of line 162. *)
Definition isVisible (query : string) (row : Row) : bool :=
  String.eqb (rowDisplay query row) "".

(* ------------------------------------------------------------------ *)
(** ** Sheet names (lines 250-259)                                      *)
(* ------------------------------------------------------------------ *)

(** Computations over the array of used sheet names.  The array is the
    state; [None] means that the fuel given to a [while] loop ran out. *)
Definition Names (A : Type) : Type := list string -> option (A * list string).

Definition ret {A} (a : A) : Names A := fun used => Some (a, used).

Definition bind {A B} (m : Names A) (k : A -> Names B) : Names B :=
  fun used =>
    match m used with
    | Some (a, used') => k a used'
    | None => None
    end.

Notation "x <- m ;; k" := (bind m (fun x => k))
  (at level 61, m at next level, right associativity).

(** [existingNames.includes(name)] *)
Definition array_includes (name : string) : Names bool :=
  fun used => Some (existsb (String.eqb name) used, used).

(** [usedSheetNames.push(name)] *)
Definition array_push (name : string) : Names unit :=
  fun used => Some (tt, (used ++ [name])%list).

(** The name tried for the suffix [suffix] (lines 254-255). *)
Definition suffixed (sheetName : string) (suffix : N) : string :=
  let base := Js.substring0 (31 - Z.of_nat (String.length (Js.toString suffix))) sheetName in
  base ++ Js.toString suffix.

(** The [while] loop of [getUniqueSheetName], entered with the current
    [uniqueName] and [suffix]. *)
Fixpoint getUniqueSheetName_while (fuel : nat) (sheetName uniqueName : string) (suffix : N)
  : Names string :=
  match fuel with
  | O => fun _ => None
  | S fuel' =>
      taken <- array_includes uniqueName ;;
      if taken : bool then
        getUniqueSheetName_while fuel' sheetName (suffixed sheetName suffix) (suffix + 1)%N
      else ret uniqueName
  end.

(** [getUniqueSheetName(sheetName, existingNames)], the array being the
    state of the computation. *)
Definition getUniqueSheetName (fuel : nat) (sheetName : string) : Names string :=
  getUniqueSheetName_while fuel sheetName sheetName 1%N.

(** The names the loop tries, in order: the name it is entered with,
    then the suffixed names from [suffix] on. *)
Definition tried (sheetName uniqueName : string) (suffix : N) (j : nat) : string :=
  match j with
  | O => uniqueName
  | S j' => suffixed sheetName (suffix + N.of_nat j')
  end.

(** A JavaScript array holds at most 2^32 - 1 elements. *)
Definition maxArrayLength : N := 4294967295.

(* ------------------------------------------------------------------ *)
(** ** Export (lines 328-511)                                           *)
(* ------------------------------------------------------------------ *)

(** A cell of the array of arrays handed to [XLSX.utils.aoa_to_sheet]. *)
Inductive Cell :=
| text (s : string)
| number (n : N).

Definition Table := list (list Cell).

(** A workbook as the code builds it: [XLSX.utils.book_new()] is the
    empty list and [book_append_sheet] adds a named sheet at the end.
    The library itself is not part of the repository; its own checks of
    a sheet name are not modelled. *)
Definition Workbook := list (string * Table).

Inductive Outcome :=
| Downloaded (filename : string) (wb : Workbook)
| Aborted (log : LogEntry).

(** [s.length > 31 ? s.substring(0, 31) : s] *)
Definition truncate31 (s : string) : string :=
  if (31 <? String.length s)%nat then Js.substring0 31 s else s.

(** *** 1) The current object (lines 328-365) *)

Definition currentHeader : list Cell :=
  [text "Field Label"; text "API Name"; text "Field Type"; text "Picklist Values"].

(** The body of the [forEach] of lines 335-345: the rows pushed for one
    table row. *)
Definition currentRow (row : Row) : Table :=
  if (List.length (cells row) <? 3)%nat then []
  else
    let fieldLabel := Js.trim (cell 0 row) in
    let apiName := Js.trim (cell 1 row) in
    let originalFieldType := Js.trim (cell 2 row) in
    let mappedFieldType := mapFieldTypeForExport originalFieldType (Some 500%N) in
    let picklistText := Js.trim (annotation row) in
    [[text fieldLabel; text apiName; text mappedFieldType; text picklistText]].

Definition currentData (rows : list Row) : Table :=
  currentHeader :: flat_map currentRow rows.

(** [exportCurrentObjectFieldsToXLSX()].  [tableBody] is [None] when
    [waitForElement] times out, [apiName] is the completion of
    [getObjectApiNameFromURL()]. *)
Definition exportCurrentObjectFieldsToXLSX
  (tableBody : option (list Row)) (apiName : Completion (option string)) : Outcome :=
  match tableBody with
  | None => Aborted (console_error "Error exporting current object fields to XLSX:"
                                   (Some "Timeout waiting for element: table tbody"))
  | Some rows =>
      let data := currentData rows in
      match apiName with
      | Thrown => Aborted (console_error "Error exporting current object fields to XLSX:" None)
      | Returned r =>
          let objectName :=
            match r with
            | Some n => if String.eqb n "" then "Object" else n
            | None => "Object"
            end in
          let sheetName := truncate31 objectName in
          Downloaded (objectName ++ "_fields_export.xlsx") [(sheetName, data)]
      end
  end.

(** *** 2) and 3) Objects described by the provider (lines 368-511) *)

Record ObjectRef := mkObject {
  objectLabel : string;
  objectApiName : string
}.

Record Field := mkField {
  fieldLabel : string;
  fieldApiName : string;
  fieldType : string;
  fieldLength : option N;
  picklistValues : string
}.

Record DescribeResponse := mkDescribe {
  describe_success : bool;
  describe_fields : option (list Field);
  describe_error : option string
}.

Definition describeHeader : list Cell :=
  [text "Field Label"; text "API Name"; text "Field Type"; text "Field Length";
   text "Picklist Values"].

(** The row pushed for one field (lines 421-428 and 479-486). *)
Definition fieldRow (field : Field) : list Cell :=
  let mappedFieldType := mapFieldTypeForExport (fieldType field) (fieldLength field) in
  [text (fieldLabel field);
   text (fieldApiName field);
   text mappedFieldType;
   match fieldLength field with
   | Some n => if (n =? 0)%N then text "" else number n
   | None => text ""
   end;
   text (picklistValues field)].

Definition errorRow (obj : ObjectRef) : list Cell :=
  [text (objectLabel obj); text (objectApiName obj); text "Error fetching fields";
   text ""; text ""].

(** [response && response.success && response.fields] *)
Definition describedFields (response : option DescribeResponse) : option (list Field) :=
  match response with
  | Some r => if describe_success r then describe_fields r else None
  | None => None
  end.

(** Lines 417-432 and 475-490: the table of one object. *)
Definition describeData (obj : ObjectRef) (response : option DescribeResponse) : Table :=
  describeHeader ::
  match describedFields response with
  | Some fields => map fieldRow fields
  | None => [errorRow obj]
  end.

(** The loop of [exportSelectedObjectsToXLSX] (lines 464-497).
    [describe i] is the response to the request for the [i]-th object. *)
Fixpoint exportSelected_for (fuel : nat) (describe : nat -> option DescribeResponse)
  (i : nat) (objects : list ObjectRef) (wb : Workbook) : Names Workbook :=
  match objects with
  | [] => ret wb
  | obj :: rest =>
      let response := describe i in
      let data := describeData obj response in
      let sheetName := objectLabel obj in
      let sheetName := truncate31 sheetName in
      sheetName <- getUniqueSheetName fuel sheetName ;;
      _ <- array_push sheetName ;;
      exportSelected_for fuel describe (S i) rest (wb ++ [(sheetName, data)])%list
  end.

(** [exportSelectedObjectsToXLSX(selectedObjects)]; [None] when [fuel]
    does not suffice for the allocation of a sheet name. *)
Definition exportSelectedObjectsToXLSX (fuel : nat)
  (describe : nat -> option DescribeResponse) (selectedObjects : list ObjectRef)
  : option Outcome :=
  match exportSelected_for fuel describe 0 selectedObjects [] [] with
  | Some (wb, _) => Some (Downloaded "selected_salesforce_objects_fields_export.xlsx" wb)
  | None => None
  end.

(** The tables of the objects numbered from [i], in order. *)
Fixpoint describedTables (describe : nat -> option DescribeResponse) (i : nat)
  (objects : list ObjectRef) : list Table :=
  match objects with
  | [] => []
  | obj :: rest => describeData obj (describe i) :: describedTables describe (S i) rest
  end.

(** A row of the home page: the decoded identifier matched in the href
    of its link (if it has a link that matches) and the text of its first
    cell (if it has a cell). *)
Record HomeRow := mkHomeRow {
  linkIdentifier : option string;
  firstCell : option string
}.

(** Lines 377-401: the objects listed on the home page.  [resolve i] is
    the response to the resolution request made for row [i]. *)
Fixpoint listedObjects (resolve : nat -> option ResolveResponse) (i : nat)
  (rows : list HomeRow) : Completion (list ObjectRef) :=
  match rows with
  | [] => Returned []
  | row :: rest =>
      let continue (found : list ObjectRef) :=
        match listedObjects resolve (S i) rest with
        | Returned objects => Returned (found ++ objects)%list
        | Thrown => Thrown
        end in
      match linkIdentifier row with
      | None => continue []
      | Some identifier =>
          let named (objectApiName : string) :=
            let objectLabel :=
              match firstCell row with
              | Some t => Js.trim t
              | None => objectApiName
              end in
            continue [mkObject objectLabel objectApiName] in
          if isSalesforceId identifier then
            match resolve i with
            | Some r => if resolve_success r then named (resolve_apiName r) else named identifier
            | None => Thrown               (* response.error of undefined *)
            end
          else named identifier
      end
  end.

(** The loop of [exportFullDatabaseToXLSX] (lines 406-441). *)
Fixpoint exportFull_for (fuel : nat) (describe : nat -> option DescribeResponse)
  (i : nat) (objects : list ObjectRef) (wb : Workbook) : Names Workbook :=
  match objects with
  | [] => ret wb
  | obj :: rest =>
      let response := describe i in
      let data := describeData obj response in
      let sheetName := objectLabel obj in
      let sheetName := truncate31 sheetName in
      sheetName <- getUniqueSheetName fuel sheetName ;;
      _ <- array_push sheetName ;;
      exportFull_for fuel describe (S i) rest (wb ++ [(sheetName, data)])%list
  end.

(** [exportFullDatabaseToXLSX()]. *)
Definition exportFullDatabaseToXLSX (fuel : nat)
  (tableBody : option (list HomeRow))
  (resolve : nat -> option ResolveResponse)
  (describe : nat -> option DescribeResponse) : option Outcome :=
  match tableBody with
  | None => Some (Aborted (console_error "Error exporting full database to XLSX:"
                                         (Some "Timeout waiting for element: table tbody")))
  | Some [] => Some (Aborted (console_error "No objects found on the home page." None))
  | Some rows =>
      match listedObjects resolve 0 rows with
      | Thrown => Some (Aborted (console_error "Error exporting full database to XLSX:" None))
      | Returned objects =>
          match exportFull_for fuel describe 0 objects [] [] with
          | Some (wb, _) => Some (Downloaded "salesforce_objects_fields_export.xlsx" wb)
          | None => None
          end
      end
  end.

(* ------------------------------------------------------------------ *)
(** ** Scenarios of the specification                                   *)
(* ------------------------------------------------------------------ *)

(** Scenario A: the rendered rows of one object, the second one a
    picklist whose values have been fetched. *)
Definition scenarioA_rows : list Row :=
  [ mkRow ["Name"; "Name"; "String"] (Some "") (Some "true") "" None;
    mkRow ["Status"; "Status__c"; "Picklist"] (Some "Active;Inactive") (Some "true") ""
          (Some "Active;Inactive") ].

(** Scenario B: two objects, the describe request of the second fails. *)
Definition scenarioB_objects : list ObjectRef :=
  [ mkObject "Account" "Account"; mkObject "Widget" "Widget__c" ].

Definition scenarioB_describe (i : nat) : option DescribeResponse :=
  match i with
  | O => Some (mkDescribe true
                 (Some [mkField "Account Name" "Name" "string" (Some 255%N) "";
                        mkField "Owner" "OwnerId" "reference" None ""])
                 None)
  | _ => Some (mkDescribe false None (Some "describe failed"))
  end.

(** Scenario C: two labels with the same first 31 characters. *)
Definition scenarioC_objects : list ObjectRef :=
  [ mkObject "Customer Relationship Assessment Record" "CRA_Record__c";
    mkObject "Customer Relationship Assessment Review" "CRA_Review__c" ].

(** A page with one unprocessed picklist row. *)
Definition picklistPage : Page :=
  mkPage "https://example.my.salesforce.com" (Some "Account")
         (Some [mkRow ["Status"; "Status__c"; "Picklist"] None None "" None])
         (Some "") [] [] [].

(** The same page under an address that holds a record id, and the
    response of a provider that cannot resolve it. *)
Definition recordIdPage : Page :=
  mkPage "https://example.my.salesforce.com" (Some "01I5g000000abcdEAA")
         (Some [mkRow ["Status"; "Status__c"; "Picklist"] None None "" None])
         (Some "") [] [] [].

Definition notResolved : option ResolveResponse :=
  Some (mkResolve false "" (Some "not found")).

(** A row found by the query ["a"], and by no query with a space after it. *)
Definition abRow : Row := mkRow ["ab"; "x"; "y"] None None "" None.

Definition abPage : Page :=
  mkPage "https://example.my.salesforce.com" (Some "Account") (Some [abRow])
         (Some "") [] [] [].

(* ------------------------------------------------------------------ *)
(** ** Scrolling (lines 45-77)                                          *)
(* ------------------------------------------------------------------ *)

(** What [findScrollableParent] reads of an element. *)
Record Element := mkElement {
  overflowY : string;                    (* getComputedStyle(el).overflowY *)
  scrollHeight : Z;
  clientHeight : Z
}.

Definition scrolls (parent : Element) : bool :=
  (String.eqb (overflowY parent) "auto" || String.eqb (overflowY parent) "scroll")
  && (clientHeight parent <? scrollHeight parent)%Z.

(** [findScrollableParent(el)]; [ancestors] are the ancestors of [el],
    nearest first, up to and without [document.documentElement]. *)
Fixpoint findScrollableParent (ancestors : list Element) : option Element :=
  match ancestors with
  | [] => None
  | parent :: rest => if scrolls parent then Some parent else findScrollableParent rest
  end.

(** [autoScrollAndWait(container)], entered with [lastHeight].
    [observed] lists the [scrollHeight] read after each wait of 500 ms;
    the result is the number of calls of [scrollStep] by the time the
    promise resolves, [None] while it has not resolved. *)
Fixpoint autoScrollAndWait (lastHeight : Z) (observed : list Z) : option nat :=
  match observed with
  | [] => None
  | newHeight :: rest =>
      if (lastHeight <? newHeight)%Z
      then option_map S (autoScrollAndWait newHeight rest)
      else Some 1%nat
  end.

(* ------------------------------------------------------------------ *)
(** ** Setting up Quick Find (lines 127-159 and 516-526)                *)
(* ------------------------------------------------------------------ *)

(** The search input: its id, [dataset.customized], whether it has a
    parent node, and how often [onQuickFindInput] listens on it. *)
Record SearchInput := mkInput {
  input_id : string;
  input_customized : option string;
  input_attached : bool;
  input_listeners : nat
}.

(** The search box of the page: the input in it, the number of elements
    with the id [exportDetailXLSXButton], and the console. *)
Record SearchBox := mkBox {
  box_input : option SearchInput;
  box_buttons : nat;
  box_console : list LogEntry
}.

(** [addInlineExportButton(parentContainer)] *)
Definition addInlineExportButton (d : SearchBox) : SearchBox :=
  if (0 <? box_buttons d)%nat then d
  else mkBox (box_input d) (S (box_buttons d)) (box_console d).

(** [setupCustomQuickFind(originalInput)] on the page [d]; [home] is
    [isObjectManagerHomePage()].  The clone takes the place of the
    original; [cloneNode] copies attributes, not listeners. *)
Definition setupCustomQuickFind (home : bool) (originalInput : option SearchInput)
  (d : SearchBox) : SearchBox :=
  let say e := mkBox (box_input d) (box_buttons d) (box_console d ++ [e]) in
  match originalInput with
  | None => say (console_error "Original Quick Find input not found." None)
  | Some original =>
      if negb (input_attached original) then
        say (console_error "Original Quick Find input has no parent node." None)
      else if match input_customized original with
              | Some v => String.eqb v "true"
              | None => false
              end then
        say (console_log "Custom Quick Find already set up.")
      else
        let newInput := mkInput "customQuickFind" (Some "true") true 1 in
        let d1 := mkBox (Some newInput) (box_buttons d)
                        (box_console d ++ [console_log "Custom Quick Find attached."]) in
        if negb home then addInlineExportButton d1 else d1
  end.

(* ------------------------------------------------------------------ *)
(** ** The selection modal (lines 531-677)                              *)
(* ------------------------------------------------------------------ *)

(** Lines 536-560: the objects offered in the modal. *)
Fixpoint modalObjects (resolve : nat -> option ResolveResponse) (i : nat)
  (rows : list HomeRow) : Completion (list ObjectRef) :=
  match rows with
  | [] => Returned []
  | row :: rest =>
      let continue (found : list ObjectRef) :=
        match modalObjects resolve (S i) rest with
        | Returned objects => Returned (found ++ objects)%list
        | Thrown => Thrown
        end in
      match linkIdentifier row with
      | None => continue []
      | Some identifier =>
          let named (objectApiName : string) :=
            let objectLabel :=
              match firstCell row with
              | Some t => Js.trim t
              | None => objectApiName
              end in
            continue [mkObject objectLabel objectApiName] in
          if isSalesforceId identifier then
            match resolve i with
            | Some r => if resolve_success r then named (resolve_apiName r) else named identifier
            | None => Thrown               (* response.error of undefined *)
            end
          else named identifier
      end
  end.

(** A row whose identifier is a record id that gets no response. *)
Definition unanswered (resolve : nat -> option ResolveResponse) (k : nat) (row : HomeRow)
  : Prop :=
  exists identifier,
    linkIdentifier row = Some identifier /\ isSalesforceId identifier = true /\
    resolve k = None.

(** A [<label>] of the modal: the value and state of its checkbox, its
    [textContent] and its [style.display]. *)
Record ModalLabel := mkLabel {
  cb_value : string;
  cb_checked : bool;
  label_text : string;
  label_display : string
}.

(** Lines 638-649: one label per object, unchecked. *)
Definition modalLabels (objects : list ObjectRef) : list ModalLabel :=
  map (fun obj => mkLabel (objectApiName obj) false (" " ++ objectLabel obj) "block") objects.

(** The listener of the search input of the modal (lines 627-634). *)
Definition modalSearch (value : string) (labels : list ModalLabel) : list ModalLabel :=
  let filter := Js.toLowerCase (Js.trim value) in
  map (fun label =>
         let text := Js.toLowerCase (label_text label) in
         mkLabel (cb_value label) (cb_checked label) (label_text label)
                 (if Js.includes text filter then "block" else "none"))
      labels.

Definition shown (label : ModalLabel) : bool :=
  negb (String.eqb (label_display label) "none").

(** The listener of the toggle button (lines 583-589): the labels and
    the text of the button afterwards. *)
Definition toggleSelection (labels : list ModalLabel) : list ModalLabel * string :=
  let allChecked := forallb cb_checked (filter shown labels) in
  (map (fun label =>
          if shown label
          then mkLabel (cb_value label) (negb allChecked) (label_text label)
                       (label_display label)
          else label)
       labels,
   if allChecked then "Select All" else "Deselect All").

(** The listeners of the two export buttons (lines 594-603 and 650-659):
    the objects handed to [exportSelectedObjectsToXLSX]. *)
Definition selectedObjects (objects : list ObjectRef) (labels : list ModalLabel)
  : list ObjectRef :=
  flat_map
    (fun label =>
       if cb_checked label then
         let apiName := cb_value label in
         match find (fun o => String.eqb (objectApiName o) apiName) objects with
         | Some correspondingObj => [correspondingObj]
         | None => []
         end
       else [])
    labels.

(** The user ticks the boxes as [ticks] says. *)
Definition tick (ticks : list bool) (labels : list ModalLabel) : list ModalLabel :=
  map (fun '(label, t) => mkLabel (cb_value label) t (label_text label) (label_display label))
      (combine labels ticks).

(* ------------------------------------------------------------------ *)
(** ** A second invariant of the pages                                  *)
(* ------------------------------------------------------------------ *)

(** Over the life of a page at most one request is sent for a row, and
    none for a row that is unprocessed or not in the table. *)
Definition sentOnce (p : Page) : Prop :=
  forall i,
    (requestsFor i p <= 1)%nat /\
    (forall row, rowAt i p = Some row -> isFetched row = false -> requestsFor i p = 0%nat) /\
    (rowAt i p = None -> requestsFor i p = 0%nat).

(* ================================================================== *)
(** * Properties                                                        *)
(* ================================================================== *)

(* ------------------------------------------------------------------ *)
(** ** Strings                                                          *)
(* ------------------------------------------------------------------ *)

Section StringFacts.

Import Js.

Lemma append_nil_r (s : string) : s ++ "" = s.
Proof. induction s as [|c s IH]; simpl; [reflexivity | now rewrite IH]. Qed.

Lemma append_assoc (a b c : string) : (a ++ b) ++ c = a ++ (b ++ c).
Proof. induction a as [|x a IH]; simpl; [reflexivity | now rewrite IH]. Qed.

Lemma length_append (a b : string) :
  String.length (a ++ b) = (String.length a + String.length b)%nat.
Proof. induction a as [|x a IH]; simpl; [reflexivity | now rewrite IH]. Qed.

Lemma append_inv_head (a b c : string) : a ++ b = a ++ c -> b = c.
Proof.
  induction a as [|x a IH]; simpl; intros H; [exact H |].
  injection H as H. now apply IH.
Qed.

Lemma length_substring0 (m : nat) (s : string) :
  String.length (String.substring 0 m s) = Nat.min m (String.length s).
Proof.
  revert m; induction s as [|c s IH]; intros [|m]; simpl; try reflexivity.
  now rewrite IH.
Qed.

Lemma toLowerCase_append (a b : string) :
  toLowerCase (a ++ b) = toLowerCase a ++ toLowerCase b.
Proof. induction a as [|x a IH]; simpl; [reflexivity | now rewrite IH]. Qed.

Lemma toLowerCase_empty (s : string) : toLowerCase s = "" <-> s = "".
Proof. destruct s; simpl; split; intros H; try reflexivity; discriminate. Qed.

Lemma startsWith_spec (s q : string) :
  startsWith s q = true <-> exists r, s = q ++ r.
Proof.
  revert s; induction q as [|b q IH]; intros s; simpl.
  - split; [intros _; now exists s | reflexivity].
  - destruct s as [|a s].
    + split; [discriminate | intros [r H]; discriminate].
    + rewrite andb_true_iff, Ascii.eqb_eq, IH. split.
      * intros [-> [r ->]]. now exists r.
      * intros [r H]. injection H as -> ->. split; [reflexivity | now exists r].
Qed.

Lemma includes_spec (s q : string) :
  includes s q = true <-> exists a b, s = a ++ q ++ b.
Proof.
  induction s as [|c s IH]; simpl; rewrite orb_true_iff, startsWith_spec.
  - split.
    + intros [[r H] | H]; [now exists "", r | discriminate].
    + intros [[|x a] [b H]]; [left; now exists b | discriminate].
  - rewrite IH. split.
    + intros [[r H] | [a [b H]]]; [now exists "", r |].
      exists (String c a), b. simpl. now rewrite H.
    + intros [[|x a] [b H]]; [left; now exists b |].
      right. injection H as -> ->. now exists a, b.
Qed.

Lemma includes_append_l (p s q : string) :
  includes s q = true -> includes (p ++ s) q = true.
Proof.
  rewrite !includes_spec. intros [a [b ->]].
  exists (p ++ a), b. now rewrite append_assoc.
Qed.

(** A string that contains [q] contains every part of [q]. *)
Lemma includes_part (s a q b : string) :
  includes s (a ++ q ++ b) = true -> includes s q = true.
Proof.
  rewrite !includes_spec. intros [x [y ->]].
  exists (x ++ a), (b ++ y). now rewrite !append_assoc.
Qed.

Lemma trimStart_part (s : string) : exists a, s = a ++ trimStart s.
Proof.
  induction s as [|c s [a IH]]; simpl; [now exists "" |].
  destruct (isWhiteSpace c); [| now exists ""].
  exists (String c a). simpl. now rewrite <- IH.
Qed.

Lemma trimEnd_part (s : string) : exists b, s = trimEnd s ++ b.
Proof.
  induction s as [|c s [b IH]]; simpl; [now exists "" |].
  destruct (trimEnd s) as [|d r] eqn:E.
  - destruct (isWhiteSpace c); [now exists (String c s) |].
    exists b. simpl in *. now rewrite IH at 1.
  - exists b. simpl in *. now rewrite IH at 1.
Qed.

Lemma trim_part (s : string) : exists a b, s = a ++ trim s ++ b.
Proof.
  destruct (trimStart_part s) as [a Ha].
  destruct (trimEnd_part (trimStart s)) as [b Hb].
  exists a, b. unfold trim. now rewrite <- Hb.
Qed.

(** White space is not a letter: [toLowerCase] neither adds nor removes it. *)
Lemma isWhiteSpace_toLowerCase (c : ascii) :
  isWhiteSpace (toLowerCase_char c) = isWhiteSpace c.
Proof. destruct c as [[] [] [] [] [] [] [] []]; reflexivity. Qed.

Lemma trimStart_toLowerCase (s : string) :
  trimStart (toLowerCase s) = toLowerCase (trimStart s).
Proof.
  induction s as [|c s IH]; simpl; [reflexivity |].
  rewrite isWhiteSpace_toLowerCase. now destruct (isWhiteSpace c).
Qed.

Lemma trimEnd_toLowerCase (s : string) :
  trimEnd (toLowerCase s) = toLowerCase (trimEnd s).
Proof.
  induction s as [|c s IH]; simpl; [reflexivity |].
  rewrite IH, isWhiteSpace_toLowerCase.
  destruct (trimEnd s); simpl; [now destruct (isWhiteSpace c) | reflexivity].
Qed.

Lemma trim_toLowerCase (s : string) : trim (toLowerCase s) = toLowerCase (trim s).
Proof. unfold trim. now rewrite trimStart_toLowerCase, trimEnd_toLowerCase. Qed.

(** A string without white space is its own trim. *)
Lemma trimStart_id (s : string) :
  allChars (fun c => negb (isWhiteSpace c)) s = true -> trimStart s = s.
Proof.
  destruct s as [|c s]; simpl; [reflexivity |].
  now destruct (isWhiteSpace c).
Qed.

Lemma trimEnd_id (s : string) :
  allChars (fun c => negb (isWhiteSpace c)) s = true -> trimEnd s = s.
Proof.
  induction s as [|c s IH]; simpl; [reflexivity |].
  rewrite andb_true_iff. intros [Hc Hs]. rewrite (IH Hs).
  destruct s; [| reflexivity].
  now destruct (isWhiteSpace c).
Qed.

Lemma trim_id (s : string) :
  allChars (fun c => negb (isWhiteSpace c)) s = true -> trim s = s.
Proof. intros H. unfold trim. rewrite (trimStart_id _ H). now apply trimEnd_id. Qed.

Lemma allChars_toLowerCase (s : string) :
  allChars (fun c => negb (isWhiteSpace c)) (toLowerCase s)
  = allChars (fun c => negb (isWhiteSpace c)) s.
Proof.
  induction s as [|c s IH]; simpl; [reflexivity |].
  now rewrite IH, isWhiteSpace_toLowerCase.
Qed.

End StringFacts.

(* ------------------------------------------------------------------ *)
(** ** Decimal notation                                                 *)
(* ------------------------------------------------------------------ *)

Section DecimalFacts.

Import Js.
Local Open Scope N_scope.

Lemma valueOf_append (acc : N) (a b : string) :
  valueOf acc (a ++ b) = valueOf (valueOf acc a) b.
Proof. revert acc; induction a as [|c a IH]; intros acc; simpl; [reflexivity | apply IH]. Qed.

Lemma N_of_digitChar (d : N) : d < 10 -> N_of_ascii (digitChar d) - 48 = d.
Proof.
  intros H. unfold digitChar. rewrite N_ascii_embedding by lia. lia.
Qed.

Lemma digits_value (fuel : nat) :
  forall n, n < 2 ^ N.of_nat fuel -> valueOf 0 (digits fuel n) = n.
Proof.
  induction fuel as [|fuel IH]; intros n H.
  - simpl in *. lia.
  - rewrite Nat2N.inj_succ, N.pow_succ_r' in H. cbn [digits].
    destruct (n <? 10) eqn:E.
    + apply N.ltb_lt in E. cbn [valueOf]. rewrite N_of_digitChar by exact E. lia.
    + apply N.ltb_ge in E.
      rewrite valueOf_append, IH by (apply N.Div0.div_lt_upper_bound; lia).
      cbn [valueOf]. rewrite N_of_digitChar by (apply N.mod_lt; lia).
      symmetry. apply N.div_mod'.
Qed.

(** [toString] writes the number it is given. *)
Lemma toString_value (n : N) : valueOf 0 (toString n) = n.
Proof.
  apply digits_value.
  rewrite Nat2N.inj_succ, N2Nat.id, N.pow_succ_r'.
  pose proof (N.size_gt n). lia.
Qed.

Lemma toString_inj (n m : N) : toString n = toString m -> n = m.
Proof. intros H. now rewrite <- (toString_value n), H, toString_value. Qed.

Lemma digits_length_le (fuel : nat) :
  forall n d, (1 <= d)%nat -> n < 10 ^ N.of_nat d ->
              (String.length (digits fuel n) <= d)%nat.
Proof.
  induction fuel as [|fuel IH]; intros n d Hd H; simpl; [lia |].
  destruct (n <? 10) eqn:E; simpl; [exact Hd |].
  apply N.ltb_ge in E. rewrite length_append. simpl.
  destruct d as [|[|d]]; [lia | simpl in H; lia |].
  rewrite Nat2N.inj_succ, N.pow_succ_r' in H.
  assert (String.length (digits fuel (n / 10)) <= S d)%nat.
  { apply IH; [lia |]. apply N.Div0.div_lt_upper_bound; lia. }
  lia.
Qed.

(** A number below [10^d] is written with at most [d] digits ... *)
Lemma toString_length_le (n : N) (d : nat) :
  (1 <= d)%nat -> n < 10 ^ N.of_nat d -> (String.length (toString n) <= d)%nat.
Proof. apply digits_length_le. Qed.

(** ... and every number with at least one. *)
Lemma toString_length_pos (n : N) : (1 <= String.length (toString n))%nat.
Proof.
  unfold toString. simpl. destruct (n <? 10); simpl; [lia |].
  rewrite length_append. simpl. lia.
Qed.

End DecimalFacts.

(* ------------------------------------------------------------------ *)
(** ** Sheet names                                                      *)
(* ------------------------------------------------------------------ *)

Section SheetNames.

Import Js.

Lemma existsb_eqb_In (x : string) (l : list string) :
  existsb (String.eqb x) l = true <-> In x l.
Proof.
  rewrite existsb_exists. split.
  - intros [y [Hy E]]. apply String.eqb_eq in E. now subst.
  - intros H. exists x. split; [exact H | apply String.eqb_refl].
Qed.

Lemma existsb_eqb_not_In (x : string) (l : list string) :
  existsb (String.eqb x) l = false <-> ~ In x l.
Proof.
  split.
  - intros H I. apply existsb_eqb_In in I. congruence.
  - intros H. destruct (existsb (String.eqb x) l) eqn:E; [| reflexivity].
    apply existsb_eqb_In in E. contradiction.
Qed.

(** The loop never writes to the array. *)
Lemma getUniqueSheetName_while_frame (fuel : nat) :
  forall sheetName uniqueName suffix used r used',
    getUniqueSheetName_while fuel sheetName uniqueName suffix used = Some (r, used') ->
    used' = used.
Proof.
  induction fuel as [|fuel IH]; intros sheetName uniqueName suffix used r used' H.
  - discriminate.
  - simpl in H. unfold bind, array_includes in H.
    destruct (existsb (String.eqb uniqueName) used).
    + now apply IH in H.
    + unfold ret in H. now injection H as _ <-.
Qed.

(** The loop returns the first name it tries that is not in the array. *)
Lemma getUniqueSheetName_while_first (m : nat) :
  forall fuel sheetName uniqueName suffix used,
    (m < fuel)%nat ->
    (forall j, (j < m)%nat -> In (tried sheetName uniqueName suffix j) used) ->
    ~ In (tried sheetName uniqueName suffix m) used ->
    getUniqueSheetName_while fuel sheetName uniqueName suffix used
    = Some (tried sheetName uniqueName suffix m, used).
Proof.
  induction m as [|m IH]; intros fuel sheetName uniqueName suffix used Hf Hin Hout;
    (destruct fuel as [|fuel]; [lia |]); simpl; unfold bind, array_includes.
  - apply existsb_eqb_not_In in Hout. simpl in Hout. now rewrite Hout.
  - assert (H0 : existsb (String.eqb uniqueName) used = true).
    { apply existsb_eqb_In. apply (Hin 0%nat). lia. }
    rewrite H0.
    rewrite (IH fuel sheetName (suffixed sheetName suffix) (suffix + 1)%N used).
    + destruct m as [|m]; simpl.
      * now rewrite N.add_0_r.
      * do 3 f_equal. lia.
    + lia.
    + intros j Hj. specialize (Hin (S j) ltac:(lia)).
      destruct j as [|j]; simpl in *.
      * now rewrite N.add_0_r in Hin.
      * replace (suffix + 1 + N.of_nat j)%N with (suffix + N.pos (Pos.of_succ_nat j))%N by lia.
        exact Hin.
    + destruct m as [|m]; simpl in *.
      * now rewrite N.add_0_r in Hout.
      * replace (suffix + 1 + N.of_nat m)%N with (suffix + N.pos (Pos.of_succ_nat m))%N by lia.
        exact Hout.
Qed.

(** Two suffixes written with the same number of digits give different
    names. *)
Lemma suffixed_inj (sheetName : string) (j k : N) :
  String.length (toString j) = String.length (toString k) ->
  suffixed sheetName j = suffixed sheetName k -> j = k.
Proof.
  unfold suffixed. intros L H. rewrite L in H.
  apply append_inv_head in H. now apply toString_inj.
Qed.

(** Among the first [d * n + 1] suffixes, all written with at most [d]
    digits, one gives a name outside an array of [n] names. *)
Lemma suffixed_free (sheetName : string) (used : list string) (d : nat) :
  (forall j, (1 <= j <= d * List.length used + 1)%nat ->
             (String.length (toString (N.of_nat j)) <= d)%nat) ->
  exists j, (1 <= j <= d * List.length used + 1)%nat /\
            ~ In (suffixed sheetName (N.of_nat j)) used.
Proof.
  intros Hd.
  set (M := (d * List.length used + 1)%nat) in *.
  destruct (Forall_Exists_dec (fun j => In (suffixed sheetName (N.of_nat j)) used)
              (fun j => in_dec string_dec _ used) (seq 1 M)) as [Hall | Hex].
  - exfalso.
    set (f := fun j => (String.length (toString (N.of_nat j)),
                        suffixed sheetName (N.of_nat j))).
    assert (Hnd : NoDup (map f (seq 1 M))).
    { apply NoDup_map_NoDup_ForallPairs; [| apply seq_NoDup].
      intros x y _ _ E. unfold f in E. injection E as E1 E2.
      apply Nat2N.inj. now apply (suffixed_inj sheetName). }
    assert (Hincl : incl (map f (seq 1 M)) (list_prod (seq 1 d) used)).
    { intros [l s] Hin. apply in_map_iff in Hin. destruct Hin as [j [E Hj]].
      unfold f in E. injection E as <- <-.
      rewrite Forall_forall in Hall. apply in_prod; [| now apply Hall].
      apply in_seq in Hj. apply in_seq.
      pose proof (toString_length_pos (N.of_nat j)).
      pose proof (Hd j ltac:(lia)). lia. }
    pose proof (NoDup_incl_length Hnd Hincl) as Hlen.
    rewrite length_map, length_seq, length_prod, length_seq in Hlen. lia.
  - apply Exists_exists in Hex. destruct Hex as [j [Hj Hout]].
    apply in_seq in Hj. exists j. split; [lia | exact Hout].
Qed.

(** The first index at which a decidable property fails. *)
Lemma first_free (P : nat -> Prop) (Pdec : forall j, {P j} + {~ P j}) (M : nat) :
  ~ P M -> exists m, (m <= M)%nat /\ ~ P m /\ forall j, (j < m)%nat -> P j.
Proof.
  induction M as [M IH] using lt_wf_ind. intros HM.
  destruct (Forall_Exists_dec P Pdec (seq 0 M)) as [Hall | Hex].
  - exists M. split; [lia | split; [exact HM |]].
    intros j Hj. rewrite Forall_forall in Hall. apply Hall, in_seq. lia.
  - apply Exists_exists in Hex. destruct Hex as [k [Hk Hout]]. apply in_seq in Hk.
    destruct (IH k ltac:(lia) Hout) as [m [Hm [H1 H2]]].
    exists m. split; [lia | now split].
Qed.

End SheetNames.

Section Allocation.

Import Js.

Lemma tried_suffixed (sheetName : string) (j : nat) :
  tried sheetName sheetName 1 (S j) = suffixed sheetName (N.of_nat (S j)).
Proof. unfold tried. f_equal. rewrite Nat2N.inj_succ. lia. Qed.

(** With suffixes of at most [d] digits to choose from, the loop ends at
    the first free name, after at most [d * n + 1] suffixes. *)
Lemma getUniqueSheetName_returns (sheetName : string) (used : list string) (d : nat) :
  (1 <= d)%nat ->
  (N.of_nat (d * List.length used + 1) < 10 ^ N.of_nat d)%N ->
  exists m,
    (m <= d * List.length used + 1)%nat /\
    (forall fuel, (d * List.length used + 2 <= fuel)%nat ->
       getUniqueSheetName fuel sheetName used = Some (tried sheetName sheetName 1 m, used)) /\
    ~ In (tried sheetName sheetName 1 m) used /\
    (forall j, (j < m)%nat -> In (tried sheetName sheetName 1 j) used).
Proof.
  intros Hd Hbound.
  destruct (suffixed_free sheetName used d) as [j [Hj Hout]].
  { intros j Hj. apply toString_length_le; [exact Hd | lia]. }
  destruct j as [|j]; [lia |]. rewrite <- tried_suffixed in Hout.
  destruct (first_free (fun k => In (tried sheetName sheetName 1 k) used)
              (fun k => in_dec string_dec _ used) (S j) Hout) as [m [Hm [Hfree Hfirst]]].
  exists m. split; [lia | split; [| split; assumption]].
  intros fuel Hfuel. unfold getUniqueSheetName.
  apply getUniqueSheetName_while_first; [lia | assumption | assumption].
Qed.

Lemma length_suffixed (sheetName : string) (k : N) :
  String.length (suffixed sheetName k)
  = (Nat.min (31 - String.length (toString k)) (String.length sheetName)
     + String.length (toString k))%nat.
Proof.
  unfold suffixed, substring0. rewrite length_append, length_substring0.
  f_equal. f_equal. lia.
Qed.

Lemma array_bound (used : list string) :
  (N.of_nat (List.length used) <= maxArrayLength)%N ->
  (N.of_nat (31 * List.length used + 1) < 10 ^ N.of_nat 31)%N.
Proof.
  unfold maxArrayLength. intros H.
  change (10 ^ N.of_nat 31)%N with 10000000000000000000000000000000%N. lia.
Qed.

End Allocation.

(** C1.  For a wanted name of at most 31 characters and an array of used
    names (of at most 2^32 - 1 elements, as every JavaScript array),
    [getUniqueSheetName] returns: with enough fuel the loop ends with a
    name that is not in the array and has at most 31 characters.  The
    name is the wanted one when that is free; otherwise it is the first
    free suffixed name, made of the first [31 - digits] characters of the
    wanted name (all of it when it is shorter) followed by the suffix. *)
Theorem getUniqueSheetName_unique_short
  (sheetName : string) (existingNames : list string) :
  (String.length sheetName <= 31)%nat ->
  (N.of_nat (List.length existingNames) <= maxArrayLength)%N ->
  exists uniqueName,
    (forall fuel, (31 * List.length existingNames + 2 <= fuel)%nat ->
       getUniqueSheetName fuel sheetName existingNames = Some (uniqueName, existingNames)) /\
    ~ In uniqueName existingNames /\
    (String.length uniqueName <= 31)%nat /\
    ((~ In sheetName existingNames /\ uniqueName = sheetName) \/
     (In sheetName existingNames /\
      exists suffix : N,
        (1 <= suffix)%N /\
        let digits := String.length (Js.toString suffix) in
        let base := Js.substring0 (31 - Z.of_nat digits) sheetName in
        uniqueName = base ++ Js.toString suffix /\
        String.length base = Nat.min (31 - digits) (String.length sheetName) /\
        (forall j : N, (1 <= j < suffix)%N ->
           In (Js.substring0 (31 - Z.of_nat (String.length (Js.toString j))) sheetName
               ++ Js.toString j) existingNames))).
Proof.
  intros Hlen Hmax.
  destruct (getUniqueSheetName_returns sheetName existingNames 31 ltac:(lia)
              (array_bound _ Hmax)) as [m [Hm [Hrun [Hfree Hfirst]]]].
  exists (tried sheetName sheetName 1 m).
  split; [exact Hrun | split; [exact Hfree |]].
  destruct m as [|m].
  - simpl in *. split; [exact Hlen | now left].
  - rewrite tried_suffixed in *.
    assert (Hd : (String.length (Js.toString (N.of_nat (S m))) <= 31)%nat).
    { apply toString_length_le; [lia |]. pose proof (array_bound _ Hmax). lia. }
    split.
    + rewrite length_suffixed. lia.
    + right. split; [apply (Hfirst 0%nat); lia |].
      exists (N.of_nat (S m)). split; [lia |]. cbv zeta.
      split; [reflexivity | split].
      * unfold Js.substring0. rewrite length_substring0. f_equal. lia.
      * intros j Hj.
        specialize (Hfirst (N.to_nat j) ltac:(lia)).
        destruct (N.to_nat j) as [|k] eqn:E; [lia |].
        rewrite tried_suffixed, <- E, N2Nat.id in Hfirst. exact Hfirst.
Qed.

(** C1, at a concrete array: ["Account"] is taken, ["Account1"] is next. *)
Lemma getUniqueSheetName_unique_short_witness :
  exists uniqueName,
    getUniqueSheetName 33 "Account" ["Account"] = Some (uniqueName, ["Account"]) /\
    ~ In uniqueName ["Account"] /\ (String.length uniqueName <= 31)%nat.
Proof.
  destruct (getUniqueSheetName_unique_short "Account" ["Account"]) as [u [Hrun [Hfree [Hlen _]]]].
  - simpl. lia.
  - vm_compute. discriminate.
  - exists u. split; [apply Hrun; simpl; lia | split; assumption].
Defined.

(* ------------------------------------------------------------------ *)
(** ** Export of described objects                                      *)
(* ------------------------------------------------------------------ *)

Section DescribedExport.

Variable describe : nat -> option DescribeResponse.

(** The two export loops are the same text. *)
Lemma exportFull_for_eq (fuel : nat) (objects : list ObjectRef) :
  forall i wb used,
    exportFull_for fuel describe i objects wb used
    = exportSelected_for fuel describe i objects wb used.
Proof.
  induction objects as [|obj rest IH]; intros i wb used; simpl; [reflexivity |].
  unfold bind. destruct (getUniqueSheetName fuel _ used) as [[r used1]|]; [| reflexivity].
  destruct (array_push r used1) as [[u used2]|]; [apply IH | reflexivity].
Qed.

Lemma describedTables_length (objects : list ObjectRef) :
  forall i, List.length (describedTables describe i objects) = List.length objects.
Proof. induction objects as [|obj rest IH]; intros i; simpl; [reflexivity | now rewrite IH]. Qed.

Lemma describedTables_nth (objects : list ObjectRef) :
  forall i k obj,
    nth_error objects k = Some obj ->
    nth_error (describedTables describe i objects) k
    = Some (describeData obj (describe (i + k))).
Proof.
  induction objects as [|o rest IH]; intros i [|k] obj H; simpl in *; try discriminate.
  - injection H as ->. now rewrite Nat.add_0_r.
  - rewrite (IH (S i) k obj H). do 3 f_equal. lia.
Qed.

(** The loop runs through all objects: it appends one sheet per object,
    with the object's table, under names that it adds to the array. *)
Lemma exportSelected_for_runs (objects : list ObjectRef) :
  forall used,
    (N.of_nat (List.length used + List.length objects) <= maxArrayLength)%N ->
    exists names,
      List.length names = List.length objects /\
      (NoDup used -> NoDup (used ++ names)) /\
      forall fuel i wb,
        (31 * (List.length used + List.length objects) + 2 <= fuel)%nat ->
        exportSelected_for fuel describe i objects wb used
        = Some ((wb ++ combine names (describedTables describe i objects))%list,
                (used ++ names)%list).
Proof.
  induction objects as [|obj rest IH]; intros used Hmax.
  - exists []. simpl. repeat split.
    + now rewrite app_nil_r.
    + intros fuel i wb _. now rewrite !app_nil_r.
  - simpl in Hmax.
    destruct (getUniqueSheetName_returns (truncate31 (objectLabel obj)) used 31 ltac:(lia))
      as [m [_ [Hrun [Hfree _]]]].
    { apply array_bound. lia. }
    set (r := tried _ _ _ m) in *.
    destruct (IH (used ++ [r])%list) as [names [Hlen [Hnd Hrest]]].
    { rewrite length_app. simpl. lia. }
    exists (r :: names). split; [simpl; now rewrite Hlen |]. split.
    + intros H.
      rewrite (app_assoc used [r] names : (used ++ r :: names = (used ++ [r]) ++ names)%list).
      apply Hnd. apply NoDup_app; [exact H | repeat constructor; intros [] | ].
      intros x Hx [<- | []]. now apply Hfree.
    + intros fuel i wb Hfuel. simpl in Hfuel.
      simpl. unfold bind. rewrite (Hrun fuel ltac:(lia)). unfold array_push.
      rewrite Hrest by (rewrite length_app; simpl; lia).
      now rewrite <- !app_assoc.
Qed.

End DescribedExport.

(** C9.  [getUniqueSheetName] leaves the array of used names as it is:
    whenever it returns, the array is the one it was given, and for an
    array within the size of a JavaScript array it does return.  The
    returned name is added by the caller: one round of the export loop
    pushes it at the end of the array. *)
Theorem getUniqueSheetName_leaves_array
  (sheetName : string) (existingNames : list string) :
  (forall fuel uniqueName used',
     getUniqueSheetName fuel sheetName existingNames = Some (uniqueName, used') ->
     used' = existingNames) /\
  ((N.of_nat (List.length existingNames) <= maxArrayLength)%N ->
   exists uniqueName,
     forall fuel, (31 * List.length existingNames + 2 <= fuel)%nat ->
       getUniqueSheetName fuel sheetName existingNames = Some (uniqueName, existingNames) /\
       forall describe i obj wb,
         truncate31 (objectLabel obj) = sheetName ->
         exportFull_for fuel describe i [obj] wb existingNames
         = Some ((wb ++ [(uniqueName, describeData obj (describe i))])%list,
                 (existingNames ++ [uniqueName])%list) /\
         exportSelected_for fuel describe i [obj] wb existingNames
         = Some ((wb ++ [(uniqueName, describeData obj (describe i))])%list,
                 (existingNames ++ [uniqueName])%list)).
Proof.
  split.
  - intros fuel uniqueName used' H. unfold getUniqueSheetName in H.
    now apply getUniqueSheetName_while_frame in H.
  - intros Hmax.
    destruct (getUniqueSheetName_returns sheetName existingNames 31 ltac:(lia)
                (array_bound _ Hmax)) as [m [_ [Hrun _]]].
    exists (tried sheetName sheetName 1 m). intros fuel Hfuel.
    split; [now apply Hrun |].
    intros describe i obj wb E.
    rewrite exportFull_for_eq. simpl. unfold bind.
    rewrite E, (Hrun fuel Hfuel). now split.
Qed.

(** C9, for the array [["Account"]]. *)
Lemma getUniqueSheetName_leaves_array_witness :
  exists uniqueName,
    getUniqueSheetName 40 "Account" ["Account"] = Some (uniqueName, ["Account"]).
Proof.
  destruct (proj2 (getUniqueSheetName_leaves_array "Account" ["Account"])) as [u Hu].
  - vm_compute. discriminate.
  - exists u. apply (Hu 40%nat). simpl. lia.
Defined.

Lemma nth_error_combine {A B} (l1 : list A) (l2 : list B) (i : nat) (a : A) (b : B) :
  nth_error l1 i = Some a -> nth_error l2 i = Some b ->
  nth_error (combine l1 l2) i = Some (a, b).
Proof.
  revert l1 l2; induction i as [|i IH]; intros [|x l1] [|y l2] H1 H2; simpl in *;
    try discriminate.
  - congruence.
  - now apply IH.
Qed.

Lemma map_fst_combine {A B} (l1 : list A) (l2 : list B) :
  List.length l1 = List.length l2 -> map fst (combine l1 l2) = l1.
Proof.
  revert l2; induction l1 as [|x l1 IH]; intros [|y l2] H; simpl in *;
    try discriminate; [reflexivity |].
  f_equal. apply IH. now injection H.
Qed.

(** Both exports of described objects download a workbook with one
    sheet per object, in order, each with the table of its object. *)
Lemma described_export_runs
  (describe : nat -> option DescribeResponse) (objects : list ObjectRef) :
  (N.of_nat (List.length objects) <= maxArrayLength)%N ->
  exists wb,
    (forall fuel, (31 * List.length objects + 2 <= fuel)%nat ->
       exportSelectedObjectsToXLSX fuel describe objects
       = Some (Downloaded "selected_salesforce_objects_fields_export.xlsx" wb) /\
       forall rows resolve,
         rows <> [] -> listedObjects resolve 0 rows = Returned objects ->
         exportFullDatabaseToXLSX fuel (Some rows) resolve describe
         = Some (Downloaded "salesforce_objects_fields_export.xlsx" wb)) /\
    List.length wb = List.length objects /\
    NoDup (map fst wb) /\
    (forall i obj,
       nth_error objects i = Some obj ->
       exists sheetName,
         nth_error wb i = Some (sheetName, describeData obj (describe i))).
Proof.
  intros Hmax.
  destruct (exportSelected_for_runs describe objects []) as [names [Hlen [Hnd Hrun]]];
    [simpl; lia |].
  exists (combine names (describedTables describe 0 objects)).
  split; [| split; [| split]].
  - intros fuel Hfuel. split.
    + unfold exportSelectedObjectsToXLSX. now rewrite (Hrun fuel 0%nat []) by (simpl; lia).
    + intros rows resolve Hne Hobjs. unfold exportFullDatabaseToXLSX.
      destruct rows as [|row rows]; [congruence |].
      rewrite Hobjs, exportFull_for_eq. now rewrite (Hrun fuel 0%nat []) by (simpl; lia).
  - rewrite length_combine, describedTables_length, Hlen. apply Nat.min_id.
  - rewrite map_fst_combine by (now rewrite describedTables_length).
    apply (Hnd (NoDup_nil _)).
  - intros i obj Hi.
    assert (Hlt : (i < List.length names)%nat).
    { rewrite Hlen. apply nth_error_Some. congruence. }
    destruct (nth_error names i) as [name|] eqn:En;
      [| apply nth_error_None in En; lia].
    exists name.
    pose proof (describedTables_nth describe objects 0 i obj Hi) as Ht.
    simpl in Ht. now apply nth_error_combine.
Qed.

(** C5.  A failed describe request does not end the export of selected
    or of all objects: the export downloads a workbook with one sheet per
    object, in order, each with the table of its object, and the table of
    an object whose request failed is the header followed by the single
    row [objectLabel, objectApiName, "Error fetching fields", "", ""]. *)
Theorem export_survives_failed_describe
  (describe : nat -> option DescribeResponse) (objects : list ObjectRef) :
  (N.of_nat (List.length objects) <= maxArrayLength)%N ->
  exists wb,
    (forall fuel, (31 * List.length objects + 2 <= fuel)%nat ->
       exportSelectedObjectsToXLSX fuel describe objects
       = Some (Downloaded "selected_salesforce_objects_fields_export.xlsx" wb) /\
       forall rows resolve,
         rows <> [] -> listedObjects resolve 0 rows = Returned objects ->
         exportFullDatabaseToXLSX fuel (Some rows) resolve describe
         = Some (Downloaded "salesforce_objects_fields_export.xlsx" wb)) /\
    List.length wb = List.length objects /\
    (forall i obj,
       nth_error objects i = Some obj ->
       exists sheetName,
         nth_error wb i = Some (sheetName, describeData obj (describe i))) /\
    (forall i obj,
       nth_error objects i = Some obj ->
       describedFields (describe i) = None ->
       exists sheetName,
         nth_error wb i
         = Some (sheetName,
                 [ [text "Field Label"; text "API Name"; text "Field Type";
                    text "Field Length"; text "Picklist Values"];
                   [text (objectLabel obj); text (objectApiName obj);
                    text "Error fetching fields"; text ""; text ""] ])).
Proof.
  intros Hmax.
  destruct (described_export_runs describe objects Hmax) as [wb [Hrun [Hlen [_ Hnth]]]].
  exists wb. repeat split; try assumption; try (now apply Hrun).
  intros i obj Hi Hfail. destruct (Hnth i obj Hi) as [name Hn].
  exists name. rewrite Hn. unfold describeData. now rewrite Hfail.
Qed.

(** C5, in scenario B: the second describe request fails, the workbook
    still has its sheet. *)
Lemma export_survives_failed_describe_witness :
  exists wb,
    exportSelectedObjectsToXLSX 64 scenarioB_describe scenarioB_objects
    = Some (Downloaded "selected_salesforce_objects_fields_export.xlsx" wb) /\
    List.length wb = 2%nat /\
    exists sheetName,
      nth_error wb 1
      = Some (sheetName,
              [ [text "Field Label"; text "API Name"; text "Field Type";
                 text "Field Length"; text "Picklist Values"];
                [text "Widget"; text "Widget__c"; text "Error fetching fields";
                 text ""; text ""] ]).
Proof.
  destruct (export_survives_failed_describe scenarioB_describe scenarioB_objects)
    as [wb [Hrun [Hlen [_ Hfail]]]].
  - vm_compute. discriminate.
  - exists wb. split; [apply (Hrun 64%nat); simpl; lia |].
    split; [exact Hlen |].
    apply (Hfail 1%nat (mkObject "Widget" "Widget__c")); reflexivity.
Defined.

(** C8.  The table of every sheet starts with its header row: the four
    columns "Field Label", "API Name", "Field Type", "Picklist Values" in
    the export of the current object, and the five columns with "Field
    Length" in the export of selected and of all objects.  Every rendered
    row of at least three cells gives one line, whose field type is
    [mapFieldTypeForExport] of the trimmed type text (rows of fewer cells
    give none); every described field gives one line, whose field type is
    [mapFieldTypeForExport] of the field's type and length. *)
Theorem export_headers_and_mapped_types
  (describe : nat -> option DescribeResponse) (objects : list ObjectRef) :
  (forall rows apiName,
     exists objectName sheetName,
       exportCurrentObjectFieldsToXLSX (Some rows) (Returned apiName)
       = Downloaded objectName
           [(sheetName,
             [text "Field Label"; text "API Name"; text "Field Type"; text "Picklist Values"]
             :: flat_map currentRow rows)]) /\
  (forall row,
     ((List.length (cells row) < 3)%nat -> currentRow row = []) /\
     ((3 <= List.length (cells row))%nat ->
      currentRow row
      = [[text (Js.trim (cell 0 row)); text (Js.trim (cell 1 row));
          text (mapFieldTypeForExport (Js.trim (cell 2 row)) (Some 500%N));
          text (Js.trim (annotation row))]])) /\
  ((N.of_nat (List.length objects) <= maxArrayLength)%N ->
   exists wb,
     (forall fuel, (31 * List.length objects + 2 <= fuel)%nat ->
        exportSelectedObjectsToXLSX fuel describe objects
        = Some (Downloaded "selected_salesforce_objects_fields_export.xlsx" wb) /\
        forall rows resolve,
          rows <> [] -> listedObjects resolve 0 rows = Returned objects ->
          exportFullDatabaseToXLSX fuel (Some rows) resolve describe
          = Some (Downloaded "salesforce_objects_fields_export.xlsx" wb)) /\
     forall i obj,
       nth_error objects i = Some obj ->
       exists sheetName,
         nth_error wb i
         = Some (sheetName,
                 [text "Field Label"; text "API Name"; text "Field Type";
                  text "Field Length"; text "Picklist Values"]
                 :: match describedFields (describe i) with
                    | Some fields =>
                        map (fun field =>
                               [text (fieldLabel field);
                                text (fieldApiName field);
                                text (mapFieldTypeForExport (fieldType field)
                                                            (fieldLength field));
                                match fieldLength field with
                                | None | Some 0%N => text ""
                                | Some n => number n
                                end;
                                text (picklistValues field)])
                            fields
                    | None =>
                        [[text (objectLabel obj); text (objectApiName obj);
                          text "Error fetching fields"; text ""; text ""]]
                    end)).
Proof.
  split; [| split].
  - intros rows apiName. unfold exportCurrentObjectFieldsToXLSX. eauto.
  - intros row. unfold currentRow. split; intros H.
    + apply Nat.ltb_lt in H. now rewrite H.
    + apply Nat.ltb_ge in H. now rewrite H.
  - intros Hmax.
    destruct (described_export_runs describe objects Hmax)
      as [wb [Hrun [_ [_ Hnth]]]].
    exists wb. split; [exact Hrun |].
    intros i obj Hi. destruct (Hnth i obj Hi) as [name Hname].
    exists name. rewrite Hname. unfold describeData. do 3 f_equal.
    destruct (describedFields (describe i)) as [fields|]; [| reflexivity].
    apply map_ext. intros field. unfold fieldRow.
    now destruct (fieldLength field) as [[|n]|].
Qed.

(** C8, in scenario B: the sheet of the first object has the header of
    five columns and one line per field, with the mapped types
    "Text(255)" and "Lookup(User)". *)
Lemma export_headers_and_mapped_types_witness :
  exists wb sheetName,
    exportSelectedObjectsToXLSX 64 scenarioB_describe scenarioB_objects
    = Some (Downloaded "selected_salesforce_objects_fields_export.xlsx" wb) /\
    nth_error wb 0
    = Some (sheetName,
            [ [text "Field Label"; text "API Name"; text "Field Type";
               text "Field Length"; text "Picklist Values"];
              [text "Account Name"; text "Name"; text "Text(255)"; number 255; text ""];
              [text "Owner"; text "OwnerId"; text "Lookup(User)"; text ""; text ""] ]).
Proof.
  destruct (proj2 (proj2
              (export_headers_and_mapped_types scenarioB_describe scenarioB_objects)))
    as [wb [Hrun Hnth]].
  - vm_compute. discriminate.
  - destruct (Hnth 0%nat (mkObject "Account" "Account") eq_refl) as [name Hname].
    exists wb, name. split; [apply (Hrun 64%nat); simpl; lia | exact Hname].
Defined.

(* ------------------------------------------------------------------ *)
(** ** Field types                                                      *)
(* ------------------------------------------------------------------ *)

(** C3.  [mapFieldTypeForExport] is a function of its two arguments,
    defined on every type text and every length.  Compared without regard
    to case, "reference" gives "Lookup(User)", "double" gives
    "Number(4,0)", "string" gives "Text(n)" where n is the length, or 500
    when the length is absent or zero; every other text is returned with
    its first character in upper case and the rest as it is, so
    "Checkbox" gives "Checkbox". *)
Theorem mapFieldTypeForExport_table (rawType : string) (length : option N) :
  (Js.toLowerCase rawType = "reference" ->
   mapFieldTypeForExport rawType length = "Lookup(User)") /\
  (Js.toLowerCase rawType = "double" ->
   mapFieldTypeForExport rawType length = "Number(4,0)") /\
  (Js.toLowerCase rawType = "string" ->
   mapFieldTypeForExport rawType length
   = "Text(" ++ Js.toString match length with
                             | None | Some 0%N => 500%N
                             | Some n => n
                             end ++ ")") /\
  (Js.toLowerCase rawType <> "reference" ->
   Js.toLowerCase rawType <> "double" ->
   Js.toLowerCase rawType <> "string" ->
   mapFieldTypeForExport rawType length
   = match rawType with
     | EmptyString => EmptyString
     | String first rest => String (Js.toUpperCase_char first) rest
     end) /\
  mapFieldTypeForExport "Checkbox" length = "Checkbox".
Proof.
  unfold mapFieldTypeForExport. split; [| split; [| split; [| split]]].
  - now intros ->.
  - now intros ->.
  - intros ->. simpl String.eqb. cbv iota. do 2 f_equal.
    destruct length as [[|n]|]; reflexivity.
  - intros H1 H2 H3.
    apply String.eqb_neq in H1, H2, H3. rewrite H1, H2, H3.
    now destruct rawType.
  - reflexivity.
Qed.

(** C3, on the inputs of the specification. *)
Lemma mapFieldTypeForExport_table_witness :
  mapFieldTypeForExport "Reference" None = "Lookup(User)" /\
  mapFieldTypeForExport "DOUBLE" (Some 18%N) = "Number(4,0)" /\
  mapFieldTypeForExport "string" None = "Text(500)" /\
  mapFieldTypeForExport "String" (Some 0%N) = "Text(500)" /\
  mapFieldTypeForExport "string" (Some 120%N) = "Text(120)" /\
  mapFieldTypeForExport "picklist" None = "Picklist".
Proof.
  split; [| split; [| split; [| split; [| split]]]].
  - apply (proj1 (mapFieldTypeForExport_table "Reference" None)). reflexivity.
  - apply (proj1 (proj2 (mapFieldTypeForExport_table "DOUBLE" (Some 18%N)))). reflexivity.
  - apply (proj1 (proj2 (proj2 (mapFieldTypeForExport_table "string" None)))). reflexivity.
  - apply (proj1 (proj2 (proj2 (mapFieldTypeForExport_table "String" (Some 0%N))))).
    reflexivity.
  - apply (proj1 (proj2 (proj2 (mapFieldTypeForExport_table "string" (Some 120%N))))).
    reflexivity.
  - apply (proj1 (proj2 (proj2 (proj2 (mapFieldTypeForExport_table "picklist" None)))));
      discriminate.
Defined.

(** The text "string", in any case, has no white space to trim. *)
Lemma string_type_trim (t : string) :
  Js.toLowerCase t = "string" -> Js.trim t = t.
Proof.
  intros H. apply trim_id. now rewrite <- allChars_toLowerCase, H.
Qed.

(** C10.  In the export of the current object, a row whose type text is
    "string" in any case is exported with the field type "Text(500)": the
    rendered row carries no length, and the export passes 500.  (A row
    with a type text has at least three cells.) *)
Theorem current_export_string_is_Text500 (rows : list Row) (apiName : option string) :
  (exists objectName sheetName,
     exportCurrentObjectFieldsToXLSX (Some rows) (Returned apiName)
     = Downloaded objectName [(sheetName, currentHeader :: flat_map currentRow rows)]) /\
  forall row,
    In row rows ->
    Js.toLowerCase (cell 2 row) = "string" ->
    (3 <= List.length (cells row))%nat /\
    currentRow row
    = [[text (Js.trim (cell 0 row)); text (Js.trim (cell 1 row)); text "Text(500)";
        text (Js.trim (annotation row))]].
Proof.
  split.
  - unfold exportCurrentObjectFieldsToXLSX. eauto.
  - intros row _ Htype. unfold currentRow.
    destruct (Nat.ltb_spec (List.length (cells row)) 3) as [Hlt | Hge].
    + unfold cell in Htype. rewrite nth_overflow in Htype by lia. discriminate.
    + split; [exact Hge |].
      rewrite (string_type_trim _ Htype).
      unfold mapFieldTypeForExport. now rewrite Htype.
Qed.

(** C10, on the first row of scenario A. *)
Lemma current_export_string_is_Text500_witness :
  currentRow (mkRow ["Name"; "Name"; "String"] (Some "") (Some "true") "" None)
  = [[text "Name"; text "Name"; text "Text(500)"; text ""]].
Proof.
  destruct (proj2 (current_export_string_is_Text500 scenarioA_rows (Some "Account"))
              (mkRow ["Name"; "Name"; "String"] (Some "") (Some "true") "" None))
    as [_ H].
  - simpl. now left.
  - reflexivity.
  - exact H.
Defined.

(* ------------------------------------------------------------------ *)
(** ** Quick Find                                                       *)
(* ------------------------------------------------------------------ *)

Section QuickFind.

Import Js.

Lemma filterRow_cells (query : string) (row : Row) :
  (3 <= List.length (cells row))%nat ->
  filterRow query row = set_display (rowDisplay query row) row.
Proof. intros H. unfold filterRow. apply Nat.ltb_ge in H. now rewrite H. Qed.

(** [filterRow] writes [style.display] and nothing else. *)
Lemma filterRow_keeps (query : string) (row : Row) :
  cells (filterRow query row) = cells row /\
  picklistText (filterRow query row) = picklistText row /\
  picklistFetched (filterRow query row) = picklistFetched row /\
  title (filterRow query row) = title row.
Proof. unfold filterRow. now destruct (List.length (cells row) <? 3)%nat. Qed.

Lemma visible_filterRow (query : string) (row : Row) :
  (3 <= List.length (cells row))%nat ->
  visible (filterRow query row) = isVisible query row.
Proof.
  intros H. rewrite (filterRow_cells _ _ H). unfold visible, isVisible, rowDisplay. simpl.
  now destruct (_ || _ || _ || _).
Qed.

(** The condition of lines 176-179. *)
Lemma isVisible_iff (query : string) (row : Row) :
  isVisible query row = true <->
  query = "" \/
  includes (toLowerCase (cell 0 row) ++ " " ++ toLowerCase (annotation row)) query = true \/
  includes (toLowerCase (cell 1 row)) query = true \/
  includes (toLowerCase (cell 2 row)) query = true.
Proof.
  unfold isVisible, rowDisplay.
  rewrite <- (String.eqb_eq query ""), <- !orb_true_iff, !orb_assoc.
  now destruct (_ || _ || _ || _).
Qed.

(** The code compares lower-cased texts with the lower-cased query: that
    is the comparison without regard to case. *)
Lemma isVisible_found (query : string) (row : Row) :
  isVisible (toLowerCase query) row = true <-> found query row.
Proof.
  rewrite isVisible_iff. unfold found, containsCI.
  now rewrite toLowerCase_empty, !toLowerCase_append.
Qed.

Lemma rowAt_onQuickFindInput (value : string) (i : nat) (p : Page) :
  rowAt i (onQuickFindInput value p)
  = option_map (filterRow (toLowerCase (trim value))) (rowAt i p).
Proof.
  unfold rowAt, onQuickFindInput. destruct (tableBody p) as [rows|] eqn:E; simpl.
  - apply nth_error_map.
  - now rewrite E.
Qed.

(** An annotation that contains the typed text makes the row visible. *)
Lemma isVisible_annotation (value a' : string) (row : Row) :
  containsCI a' value = true ->
  isVisible (toLowerCase (trim value)) (set_picklistText a' row) = true.
Proof.
  unfold containsCI. intros H.
  apply isVisible_iff. right. left. simpl.
  apply includes_append_l, (includes_append_l " ").
  destruct (trim_part value) as [a [b E]].
  rewrite E, !toLowerCase_append in H. now apply includes_part in H.
Qed.

End QuickFind.

(** C6, as amended.  For a row with at least three cells and a text
    typed into the Quick Find box, [onQuickFindInput] leaves the row
    visible exactly when the typed text with the white space at its ends
    trimmed is empty, or is contained, without regard to case, in the
    label and annotation joined by a space, in the API name or in the
    type text. *)
Theorem quickFind_visible_iff (value : string) (p : Page) (i : nat) (row : Row) :
  rowAt i p = Some row ->
  (3 <= List.length (cells row))%nat ->
  exists row',
    rowAt i (onQuickFindInput value p) = Some row' /\
    cells row' = cells row /\
    annotation row' = annotation row /\
    (visible row' = true <-> found (Js.trim value) row).
Proof.
  intros Hrow Hcells.
  exists (filterRow (Js.toLowerCase (Js.trim value)) row).
  rewrite rowAt_onQuickFindInput, Hrow.
  destruct (filterRow_keeps (Js.toLowerCase (Js.trim value)) row) as [Hc [Hp _]].
  repeat split; try assumption.
  - unfold annotation. now rewrite Hp.
  - rewrite (visible_filterRow _ _ Hcells). apply isVisible_found.
  - rewrite (visible_filterRow _ _ Hcells). apply isVisible_found.
Qed.

(** C6, for the row ["ab"; "x"; "y"] and the typed text ["a "]. *)
Lemma quickFind_visible_iff_witness :
  exists row',
    rowAt 0 (onQuickFindInput "a " abPage) = Some row' /\
    (visible row' = true <-> found (Js.trim "a ") abRow).
Proof.
  destruct (quickFind_visible_iff "a " abPage 0 abRow) as [row' [H1 [_ [_ H2]]]].
  - reflexivity.
  - simpl. lia.
  - exists row'. now split.
Defined.

(** C6 as stated fails for a typed text that ends in a space: the row
    ["ab"; "x"; "y"] stays visible for ["a "], and no text of the row
    contains ["a "]. *)
Lemma quickFind_untrimmed_counterexample :
  rowAt 0 (onQuickFindInput "a " abPage) = Some (set_display "" abRow) /\
  ~ (visible (set_display "" abRow) = true <-> found "a " abRow).
Proof.
  split; [reflexivity |].
  intros [H _]. specialize (H eq_refl).
  destruct H as [H | [H | [H | H]]]; discriminate.
Qed.

(** C7.  Every row is visible for the empty query.  For a non-empty
    query, a row that is visible stays visible when its annotation is
    replaced by one that contains the query (without regard to case), the
    cells being what they were; the handler then shows a row of at least
    three cells. *)
Theorem visibility_monotone_in_annotation (row : Row) (q a' : string) :
  isVisible (Js.toLowerCase (Js.trim "")) row = true /\
  (q <> "" ->
   isVisible (Js.toLowerCase (Js.trim q)) row = true ->
   containsCI a' q = true ->
   cells (set_picklistText a' row) = cells row /\
   isVisible (Js.toLowerCase (Js.trim q)) (set_picklistText a' row) = true /\
   ((3 <= List.length (cells row))%nat ->
    visible (filterRow (Js.toLowerCase (Js.trim q)) (set_picklistText a' row)) = true)).
Proof.
  split; [reflexivity |].
  intros _ _ H. split; [reflexivity |].
  pose proof (isVisible_annotation q a' row H) as Hv.
  split; [exact Hv |].
  intros Hcells. now rewrite visible_filterRow.
Qed.

(** C7, for the status row and the query ["Act"]: the row is found by
    its annotation "Active", and still is when the annotation becomes
    "Active;Inactive". *)
Lemma visibility_monotone_in_annotation_witness :
  isVisible "act" (set_picklistText "Active;Inactive"
                     (mkRow ["Status"; "Status__c"; "Picklist"] (Some "Active") None "" None))
  = true.
Proof.
  destruct (proj2 (visibility_monotone_in_annotation
                     (mkRow ["Status"; "Status__c"; "Picklist"] (Some "Active") None "" None)
                     "Act" "Active;Inactive")) as [_ [H _]].
  - discriminate.
  - reflexivity.
  - reflexivity.
  - exact H.
Defined.

(* ------------------------------------------------------------------ *)
(** ** Enrichment                                                       *)
(* ------------------------------------------------------------------ *)

Section Enrichment.

Variables objectName origin : string.

(** A row sends at most one request, and only for itself. *)
Lemma processRow_requests (i j : nat) (row : Row) :
  filter (isRequestFor j) (snd (processRow objectName origin i row))
  = if Nat.eqb i j then snd (processRow objectName origin i row) else [].
Proof.
  unfold processRow.
  destruct (isFetched row); [now destruct (Nat.eqb i j) |].
  destruct (List.length (cells row) <? 3)%nat; [now destruct (Nat.eqb i j) |].
  destruct (Js.includes _ _); simpl; now destruct (Nat.eqb i j).
Qed.

Lemma processRow_requested (i : nat) (row : Row) :
  List.length (snd (processRow objectName origin i row)) = requested row.
Proof.
  unfold processRow, requested.
  destruct (isFetched row); [reflexivity |].
  destruct (List.length (cells row) <? 3)%nat; [reflexivity |].
  now destruct (Js.includes _ _).
Qed.

(** A row that has been through the body of the loop sends nothing the
    next time. *)
Lemma processRow_again (i : nat) (row : Row) :
  requested (fst (processRow objectName origin i row)) = 0%nat.
Proof.
  unfold processRow, requested.
  destruct (isFetched row) eqn:F; simpl; [now rewrite F |].
  destruct (List.length (cells row) <? 3)%nat eqn:L; simpl; [now rewrite F, L |].
  now destruct (Js.includes _ _).
Qed.

Lemma processRows_rowAt (rows : list Row) :
  forall i k,
    nth_error (fst (processRows objectName origin i rows)) k
    = option_map (fun r => fst (processRow objectName origin (i + k) r)) (nth_error rows k).
Proof.
  induction rows as [|row rest IH]; intros i k; simpl.
  - now destruct k.
  - destruct (processRow objectName origin i row) as [row' msgs] eqn:E.
    specialize (IH (S i)).
    destruct (processRows objectName origin (S i) rest) as [rest' msgs'].
    destruct k as [|k]; simpl.
    + now rewrite Nat.add_0_r, E.
    + simpl in IH. rewrite IH. now rewrite Nat.add_succ_r.
Qed.

Lemma processRows_requests (rows : list Row) :
  forall i j,
    filter (isRequestFor j) (snd (processRows objectName origin i rows))
    = if (i <=? j)%nat
      then match nth_error rows (j - i) with
           | Some row => snd (processRow objectName origin j row)
           | None => []
           end
      else [].
Proof.
  induction rows as [|row rest IH]; intros i j; simpl.
  - destruct (i <=? j)%nat; [now destruct (j - i)%nat | reflexivity].
  - destruct (processRow objectName origin i row) as [row' msgs] eqn:E.
    specialize (IH (S i) j).
    destruct (processRows objectName origin (S i) rest) as [rest' msgs'].
    cbn [snd] in *. rewrite filter_app, IH.
    pose proof (processRow_requests i j row) as Hr. rewrite E in Hr. cbn [snd] in Hr.
    rewrite Hr.
    destruct (Nat.eqb_spec i j) as [<- | Hne].
    + replace (S i <=? i)%nat with false by (symmetry; apply Nat.leb_gt; lia).
      rewrite Nat.leb_refl, Nat.sub_diag, app_nil_r. cbn [nth_error].
      now rewrite E.
    + destruct (Nat.leb_spec i j) as [Hle | Hgt].
      * replace (S i <=? j)%nat with true by (symmetry; apply Nat.leb_le; lia).
        replace (j - i)%nat with (S (j - S i)) by lia. reflexivity.
      * replace (S i <=? j)%nat with false by (symmetry; apply Nat.leb_gt; lia).
        reflexivity.
Qed.

End Enrichment.

Section Pass.

Variable response : option ResolveResponse.
Variable p : Page.

(** Resolving the object name touches neither the rows nor the picklist
    requests. *)
Lemma getObjectApiNameFromURL_page :
  let p1 := snd (getObjectApiNameFromURL response p) in
  tableBody p1 = tableBody p /\ origin p1 = origin p /\
  urlIdentifier p1 = urlIdentifier p /\ customQuickFind p1 = customQuickFind p /\
  pending p1 = pending p /\
  forall i, filter (isRequestFor i) (sent p1) = filter (isRequestFor i) (sent p).
Proof.
  unfold getObjectApiNameFromURL.
  destruct (urlIdentifier p) as [identifier|] eqn:U; [| now repeat split].
  destruct (isSalesforceId identifier); [| now repeat split].
  destruct response as [r|]; [destruct (resolve_success r) |]; simpl;
    repeat split; try assumption; intros i; rewrite filter_app; simpl; apply app_nil_r.
Qed.

(** A pass that does not get to know the object name leaves rows and
    picklist requests alone. *)
Lemma pass_without_name (i : nat) :
  objectNameOf response p = None ->
  let q := processPicklistRows response p in
  tableBody q = tableBody p /\ pending q = pending p /\
  urlIdentifier q = urlIdentifier p /\
  filter (isRequestFor i) (sent q) = filter (isRequestFor i) (sent p).
Proof.
  unfold objectNameOf, processPicklistRows.
  destruct getObjectApiNameFromURL_page as [H1 [H2 [H3 [H4 [H5 H6]]]]].
  destruct (tableBody p) as [rows|] eqn:T; [| now repeat split].
  destruct (getObjectApiNameFromURL response p) as [[[name|]|] p1]; simpl in *.
  - destruct (String.eqb name ""); [| discriminate]. intros _. simpl.
    repeat split; try assumption. apply H6.
  - intros _. simpl. repeat split; try assumption. apply H6.
  - intros _. repeat split; try assumption. apply H6.
Qed.

(** A pass that knows the object name runs the body of the loop on
    every row. *)
Lemma pass_with_name (i : nat) (name : string) :
  objectNameOf response p = Some name ->
  let q := processPicklistRows response p in
  let sends := match rowAt i p with
               | Some row => snd (processRow name (origin p) i row)
               | None => []
               end in
  rowAt i q = option_map (fun row => fst (processRow name (origin p) i row)) (rowAt i p) /\
  urlIdentifier q = urlIdentifier p /\
  filter (isRequestFor i) (sent q) = (filter (isRequestFor i) (sent p) ++ sends)%list /\
  filter (isRequestFor i) (pending q) = (filter (isRequestFor i) (pending p) ++ sends)%list.
Proof.
  unfold objectNameOf, processPicklistRows, rowAt.
  destruct getObjectApiNameFromURL_page as [H1 [H2 [H3 [H4 [H5 H6]]]]].
  destruct (tableBody p) as [rows|] eqn:T.
  - destruct (getObjectApiNameFromURL response p) as [[[n|]|] p1]; simpl in *;
      try discriminate.
    destruct (String.eqb n ""); [discriminate |]. intros E. injection E as ->.
    unfold processPicklistRows_forEach. rewrite H1, H2.
    pose proof (processRows_rowAt name (origin p) rows 0 i) as Hrow.
    pose proof (processRows_requests name (origin p) rows 0 i) as Hreq.
    destruct (processRows name (origin p) 0 rows) as [rows' msgs]. simpl in *.
    rewrite Nat.sub_0_r in Hreq.
    rewrite !filter_app, Hreq, H5, H6. now repeat split.
  - intros _. simpl. rewrite T, !app_nil_r. now repeat split.
Qed.

End Pass.

Lemma objectNameOf_urlIdentifier (response : option ResolveResponse) (p q : Page) :
  urlIdentifier q = urlIdentifier p -> objectNameOf response q = objectNameOf response p.
Proof.
  unfold objectNameOf, getObjectApiNameFromURL. intros ->.
  destruct (urlIdentifier p) as [identifier|]; [| reflexivity].
  destruct (isSalesforceId identifier); [| reflexivity].
  destruct response as [r|]; [| reflexivity].
  now destruct (resolve_success r).
Qed.

(** What a pass does to one row and to the requests sent for it. *)
Lemma pass_row (response : option ResolveResponse) (p : Page) (i : nat) (row : Row) :
  rowAt i p = Some row ->
  let q := processPicklistRows response p in
  urlIdentifier q = urlIdentifier p /\
  match objectNameOf response p with
  | Some name =>
      rowAt i q = Some (fst (processRow name (origin p) i row)) /\
      requestsFor i q = (requestsFor i p + requested row)%nat
  | None =>
      rowAt i q = Some row /\ requestsFor i q = requestsFor i p
  end.
Proof.
  intros Hrow. unfold requestsFor.
  destruct (objectNameOf response p) as [name|] eqn:E.
  - destruct (pass_with_name response p i name E) as [H1 [H2 [H3 _]]].
    rewrite Hrow in H1, H3. simpl in H1.
    split; [exact H2 | split; [exact H1 |]].
    now rewrite H3, length_app, processRow_requested.
  - destruct (pass_without_name response p i E) as [H1 [_ [H2 H3]]].
    split; [exact H2 | split].
    + unfold rowAt in *. now rewrite H1.
    + now rewrite H3.
Qed.

(** C2, as amended.  A pass of [processPicklistRows] over a row whose
    [picklistFetched] flag is set sends no request for the row and leaves
    the row as it is.  Two passes over an unprocessed picklist row, with
    no response in between, send exactly one request for it, provided
    that one of the two passes can determine the object name of the
    page; when neither can, the passes do not get to the rows: no request
    is sent and the row is left as it is. *)
Theorem enrichment_idempotent
  (p : Page) (i : nat) (row : Row) (first second : option ResolveResponse) :
  rowAt i p = Some row ->
  (isFetched row = true ->
   requestsFor i (processPicklistRows first p) = requestsFor i p /\
   rowAt i (processPicklistRows first p) = Some row) /\
  (isFetched row = false ->
   (3 <= List.length (cells row))%nat ->
   Js.includes (Js.toLowerCase (cell 2 row)) "picklist" = true ->
   (objectNameOf first p <> None ->
    requestsFor i (processPicklistRows first p) = (requestsFor i p + 1)%nat) /\
   (objectNameOf first p <> None \/ objectNameOf second p <> None ->
    requestsFor i (processPicklistRows second (processPicklistRows first p))
    = (requestsFor i p + 1)%nat) /\
   (objectNameOf first p = None -> objectNameOf second p = None ->
    requestsFor i (processPicklistRows second (processPicklistRows first p))
    = requestsFor i p /\
    rowAt i (processPicklistRows second (processPicklistRows first p)) = Some row)).
Proof.
  intros Hrow.
  destruct (pass_row first p i row Hrow) as [Hurl Hfirst].
  split.
  - intros Hf.
    destruct (objectNameOf first p) as [name|]; destruct Hfirst as [H1 H2].
    + unfold processRow in H1. rewrite Hf in H1. simpl in H1.
      unfold requested in H2. rewrite Hf in H2. split; [lia | exact H1].
    + now split.
  - intros Hf Hcells Htype.
    assert (Hreq : requested row = 1%nat).
    { unfold requested. apply Nat.ltb_ge in Hcells. now rewrite Hf, Hcells, Htype. }
    pose proof (objectNameOf_urlIdentifier second _ _ Hurl) as Hsame.
    destruct (objectNameOf first p) as [name|]; destruct Hfirst as [H1 H2].
    + split; [intros _; lia | split; [| discriminate]]. intros _.
      destruct (pass_row second _ i _ H1) as [_ Hsecond].
      destruct (objectNameOf second (processPicklistRows first p));
        destruct Hsecond as [_ H4]; rewrite H4, H2.
      * rewrite processRow_again. lia.
      * lia.
    + destruct (pass_row second _ i _ H1) as [_ Hsecond].
      rewrite Hsame in Hsecond.
      split; [intros H; now contradiction H | split].
      * intros [H | H]; [now contradiction H |].
        destruct (objectNameOf second p); [| now contradiction H].
        destruct Hsecond as [_ H4]. rewrite H4, H2. lia.
      * intros _ Hnone. rewrite Hnone in Hsecond.
        destruct Hsecond as [H3 H4]. rewrite H4, H2. now split.
Qed.

(** C2, on the page with one picklist row: the first pass sends the
    request, the second sends none. *)
Lemma enrichment_idempotent_witness :
  requestsFor 0 (processPicklistRows None (processPicklistRows None picklistPage)) = 1%nat.
Proof.
  destruct (enrichment_idempotent picklistPage 0
              (mkRow ["Status"; "Status__c"; "Picklist"] None None "" None) None None)
    as [_ H].
  - reflexivity.
  - destruct H as [_ [H _]]; [reflexivity | simpl; lia | reflexivity |].
    apply H. left. discriminate.
Defined.

(** C2 as stated fails where the object name cannot be determined: the
    address holds a record id that the provider does not resolve, and
    two passes over the unprocessed picklist row send no request for it. *)
Lemma enrichment_unresolved_counterexample :
  rowAt 0 recordIdPage = Some (mkRow ["Status"; "Status__c"; "Picklist"] None None "" None) /\
  status 0 recordIdPage = Some unprocessed /\
  Js.includes (Js.toLowerCase "Picklist") "picklist" = true /\
  requestsFor 0 recordIdPage = 0%nat /\
  requestsFor 0 (processPicklistRows notResolved
                   (processPicklistRows notResolved recordIdPage)) = 0%nat /\
  requestsFor 0 (processPicklistRows notResolved
                   (processPicklistRows notResolved recordIdPage))
  <> (requestsFor 0 recordIdPage + 1)%nat.
Proof. repeat split. discriminate. Qed.


(* ------------------------------------------------------------------ *)
(** ** Responses                                                        *)
(* ------------------------------------------------------------------ *)

Lemma remove_pending_requests (i j : nat) (l : list (Message * Callback)) :
  filter (isRequestFor j) (remove_pending i l)
  = if Nat.eqb i j then tl (filter (isRequestFor i) l) else filter (isRequestFor j) l.
Proof.
  destruct (Nat.eqb_spec i j) as [<- | Hij].
  - induction l as [|[m [r f|]] l IH]; cbn [remove_pending filter isRequestFor];
      [reflexivity | | exact IH].
    destruct (Nat.eqb_spec r i) as [-> | Hri]; [reflexivity |].
    cbn [filter isRequestFor]. apply Nat.eqb_neq in Hri. rewrite Hri. exact IH.
  - induction l as [|[m [r f|]] l IH]; cbn [remove_pending filter isRequestFor];
      [reflexivity | | exact IH].
    destruct (Nat.eqb_spec r i) as [-> | Hri].
    + apply Nat.eqb_neq in Hij. now rewrite Hij.
    + cbn [filter isRequestFor]. now rewrite IH.
Qed.

Lemma pending_request (i : nat) (m : Message) (f : string) (l : list (Message * Callback)) :
  In (m, picklistCallback i f) l -> filter (isRequestFor i) l <> [].
Proof.
  intros H E.
  assert (Hin : In (m, picklistCallback i f) (filter (isRequestFor i) l)).
  { apply filter_In. split; [exact H | simpl; apply Nat.eqb_refl]. }
  now rewrite E in Hin.
Qed.

Lemma nth_error_update_row (f : Row -> Row) (rows : list Row) :
  forall i j,
    nth_error (update_row i f rows) j
    = option_map (fun r => if Nat.eqb i j then f r else r) (nth_error rows j).
Proof.
  induction rows as [|r rows IH]; intros i j; simpl.
  - now destruct j.
  - destruct i as [|i], j as [|j]; simpl; try reflexivity.
    + now destruct (nth_error rows j).
    + apply IH.
Qed.

Lemma isFetched_eq (r r' : Row) :
  picklistFetched r' = picklistFetched r -> isFetched r' = isFetched r.
Proof. unfold isFetched. now intros ->. Qed.

Lemma onQuickFindInput_channel (value : string) (p : Page) :
  sent (onQuickFindInput value p) = sent p /\
  pending (onQuickFindInput value p) = pending p /\
  console (onQuickFindInput value p) = console p.
Proof. unfold onQuickFindInput. now destruct (tableBody p). Qed.

Section Response.

Variables (i : nat) (fieldApiName : string) (response : option PicklistResponse).
Variable p : Page.

Let q := onPicklistResponse i fieldApiName response p.

Lemma onPicklistResponse_channel :
  sent q = sent p /\ pending q = remove_pending i (pending p).
Proof.
  unfold q, onPicklistResponse.
  destruct response as [[[] data err]|]; simpl; try (now split).
  destruct (tableBody p); simpl;
    (destruct (customQuickFind p); [rewrite !(proj1 (onQuickFindInput_channel _ _)),
                                      !(proj1 (proj2 (onQuickFindInput_channel _ _))) |]);
    now split.
Qed.

(** A failed response changes nothing but the console. *)
Lemma onPicklistResponse_failed :
  failed response = true ->
  tableBody q = tableBody p /\
  console q = (console p ++ [console_error "Error fetching picklist values:"
                                           (errorOf response)])%list.
Proof.
  unfold q, onPicklistResponse, failed, errorOf.
  destruct response as [[[] data err]|]; simpl; try discriminate; now split.
Qed.

(** Whatever the response, a row keeps its flag, and every row but the
    one answered keeps its annotation. *)
Lemma onPicklistResponse_rowAt (j : nat) :
  exists g,
    rowAt j q = option_map g (rowAt j p) /\
    forall row, picklistFetched (g row) = picklistFetched row /\
                (j <> i -> picklistText (g row) = picklistText row).
Proof.
  unfold q, onPicklistResponse.
  destruct response as [[[] data err]|]; simpl;
    try (exists (fun r => r); split; [| now split];
         unfold rowAt; simpl; destruct (tableBody p) as [rows|]; [| reflexivity];
         now destruct (nth_error rows j)).
  set (t := match data with Some t => t | None => "" end).
  set (h := fun r => set_title (Some t) (set_picklistText t r)).
  assert (Hh : forall row, picklistFetched ((if Nat.eqb i j then h row else row))
                           = picklistFetched row /\
                           (j <> i -> picklistText (if Nat.eqb i j then h row else row)
                                      = picklistText row)).
  { intros row. destruct (Nat.eqb_spec i j) as [<- | Hne].
    - split; [| intros H; now contradiction H].
      unfold h, set_title. simpl. now destruct (cells row).
    - now split. }
  unfold rowAt. destruct (tableBody p) as [rows|] eqn:T; simpl.
  - destruct (customQuickFind p) as [value|]; simpl.
    + exists (fun r => filterRow (Js.toLowerCase (Js.trim value))
                         (if Nat.eqb i j then h r else r)).
      split.
      * rewrite nth_error_map, nth_error_update_row.
        destruct (nth_error rows j); reflexivity.
      * intros row.
        destruct (filterRow_keeps (Js.toLowerCase (Js.trim value))
                    (if Nat.eqb i j then h row else row)) as [_ [Hp [Hf _]]].
        rewrite Hp, Hf. apply Hh.
    + exists (fun r => if Nat.eqb i j then h r else r).
      split; [apply nth_error_update_row | exact Hh].
  - exists (fun r => r). split; [| now split].
    destruct (customQuickFind p); simpl; unfold onQuickFindInput; simpl;
      rewrite T; simpl; now rewrite ?T.
Qed.

End Response.

(* ------------------------------------------------------------------ *)
(** ** The pages the events lead to                                     *)
(* ------------------------------------------------------------------ *)

Lemma existsb_filter {A} (f : A -> bool) (l : list A) :
  existsb f l = match filter f l with [] => false | _ :: _ => true end.
Proof.
  induction l as [|x l IH]; simpl; [reflexivity |].
  destruct (f x); simpl; [reflexivity | exact IH].
Qed.

Lemma initial_consistent (p : Page) : initial p -> consistent p.
Proof.
  intros [_ [Hp Hrows]] i. rewrite Hp. simpl. repeat split; try lia.
  - unfold rowAt in H. destruct (tableBody p) as [rows|]; [| discriminate].
    rewrite Forall_forall in Hrows. apply nth_error_In in H. now apply Hrows.
  - intros H. now contradiction H.
Qed.

(** Rows that keep flag and annotation, under the same outstanding
    requests, stay consistent. *)
Lemma consistent_rows (p q : Page) :
  (forall i, filter (isRequestFor i) (pending q) = filter (isRequestFor i) (pending p)) ->
  (forall i, exists g,
      rowAt i q = option_map g (rowAt i p) /\
      forall row, picklistFetched (g row) = picklistFetched row /\
                  picklistText (g row) = picklistText row) ->
  consistent p -> consistent q.
Proof.
  intros Hpend Hrows Hp i.
  destruct (Hp i) as [H1 [H2 H3]]. destruct (Hrows i) as [g [Hg Hkeep]].
  rewrite Hpend. split; [exact H1 | split].
  - intros row' Hrow' Hf. rewrite Hg in Hrow'.
    destruct (rowAt i p) as [row|]; [| discriminate]. injection Hrow' as <-.
    destruct (Hkeep row) as [Kf Kt]. rewrite Kt.
    apply (H2 row eq_refl). now rewrite <- (isFetched_eq _ _ Kf).
  - intros Hne. destruct (H3 Hne) as [row [Hrow [Hf Ht]]].
    exists (g row). destruct (Hkeep row) as [Kf Kt].
    rewrite Hg, Hrow, Kt, (isFetched_eq _ _ Kf). now repeat split.
Qed.

Lemma consistent_input (value : string) (p : Page) :
  consistent p ->
  consistent (onQuickFindInput value
                (mkPage (origin p) (urlIdentifier p) (tableBody p) (Some value)
                        (sent p) (pending p) (console p))).
Proof.
  apply consistent_rows.
  - intros i. now rewrite (proj1 (proj2 (onQuickFindInput_channel _ _))).
  - intros i. exists (filterRow (Js.toLowerCase (Js.trim value))).
    split; [rewrite rowAt_onQuickFindInput; reflexivity |].
    intros row. destruct (filterRow_keeps (Js.toLowerCase (Js.trim value)) row)
      as [_ [Ht [Hf _]]]. now split.
Qed.

Lemma consistent_render (rows more : list Row) (p : Page) :
  tableBody p = Some rows -> Forall fresh more ->
  consistent p -> consistent (set_tableBody (Some (rows ++ more)%list) p).
Proof.
  intros T Hmore Hp i. destruct (Hp i) as [H1 [H2 H3]].
  unfold rowAt in *. rewrite T in *. simpl.
  split; [exact H1 |].
  destruct (nth_error rows i) as [row|] eqn:E.
  - rewrite nth_error_app1 by (apply nth_error_Some; congruence). rewrite E.
    split; [exact H2 | exact H3].
  - assert (Hnone : filter (isRequestFor i) (pending p) = []).
    { destruct (filter (isRequestFor i) (pending p)) eqn:F; [reflexivity |].
      destruct H3 as [row [Hrow _]]; discriminate. }
    rewrite Hnone. split; [| intros H; now contradiction H].
    intros row Hrow Hf. split; [| reflexivity].
    rewrite nth_error_app2 in Hrow by (now apply nth_error_None).
    apply nth_error_In in Hrow. rewrite Forall_forall in Hmore. now apply Hmore.
Qed.

Lemma consistent_process (response : option ResolveResponse) (p : Page) :
  consistent p -> consistent (processPicklistRows response p).
Proof.
  intros Hp. destruct (objectNameOf response p) as [name|] eqn:E.
  - intros i. destruct (Hp i) as [H1 [H2 H3]].
    destruct (pass_with_name response p i name E) as [Hrow [_ [_ Hpend]]].
    rewrite Hpend, Hrow. clear Hpend Hrow.
    destruct (rowAt i p) as [row|] eqn:R; simpl.
    + unfold processRow.
      destruct (isFetched row) eqn:F; simpl;
        [rewrite app_nil_r; split; [exact H1 | split; [intros r [= <-]; now apply H2 | exact H3]] |].
      destruct (H2 row eq_refl F) as [Ht Hnone]. rewrite Hnone in *. clear H2 H3.
      destruct (List.length (cells row) <? 3)%nat; simpl.
      * split; [lia | split].
        -- intros r [= <-] _. now split.
        -- intros H. now contradiction H.
      * destruct (Js.includes _ _); simpl.
        -- split; [lia | split].
           ++ intros r [= <-] Hf. discriminate.
           ++ intros _. eexists. split; [reflexivity |]. now split.
        -- split; [lia | split].
           ++ intros r [= <-] Hf. unfold isFetched, set_title in Hf. simpl in Hf.
              destruct (cells row); discriminate.
           ++ intros H. now contradiction H.
    + rewrite app_nil_r. split; [exact H1 | split; [discriminate | exact H3]].
  - apply (consistent_rows p); [| | exact Hp].
    + intros i. destruct (pass_without_name response p i E) as [_ [H _]]. now rewrite H.
    + intros i. exists (fun r => r).
      destruct (pass_without_name response p i E) as [H _].
      unfold rowAt. rewrite H. split; [| now split].
      destruct (tableBody p) as [rows|]; [destruct (nth_error rows i) |]; reflexivity.
Qed.

Lemma consistent_response
  (m : Message) (i : nat) (fieldApiName : string) (response : option PicklistResponse)
  (p : Page) :
  In (m, picklistCallback i fieldApiName) (pending p) ->
  consistent p -> consistent (onPicklistResponse i fieldApiName response p).
Proof.
  intros Hin Hp j. destruct (Hp j) as [H1 [H2 H3]].
  destruct (onPicklistResponse_channel i fieldApiName response p) as [_ Hpend].
  destruct (onPicklistResponse_rowAt i fieldApiName response p j) as [g [Hg Hkeep]].
  rewrite Hpend, remove_pending_requests, Hg.
  destruct (Nat.eqb_spec i j) as [<- | Hne].
  - pose proof (pending_request i m fieldApiName _ Hin) as Hsome.
    destruct (filter (isRequestFor i) (pending p)) as [|x [|y l]] eqn:F;
      [now contradiction Hsome | | simpl in H1; lia].
    simpl. split; [lia | split; [| intros H; now contradiction H]].
    intros row' Hrow' Hf.
    destruct (H3 Hsome) as [row [Hrow [Hfetched _]]]. rewrite Hrow in Hrow'.
    injection Hrow' as <-.
    rewrite (isFetched_eq _ _ (proj1 (Hkeep row))) in Hf. congruence.
  - split; [exact H1 | split].
    + intros row' Hrow' Hf.
      destruct (rowAt j p) as [row|]; [| discriminate]. injection Hrow' as <-.
      destruct (Hkeep row) as [Kf Kt]. rewrite (Kt ltac:(congruence)).
      apply (H2 row eq_refl). now rewrite <- (isFetched_eq _ _ Kf).
    + intros Hsome. destruct (H3 Hsome) as [row [Hrow [Hf Ht]]].
      exists (g row). destruct (Hkeep row) as [Kf Kt].
      rewrite Hrow, (Kt ltac:(congruence)), (isFetched_eq _ _ Kf). now repeat split.
Qed.

(** Every page the events lead to is consistent. *)
Lemma reachable_consistent (p : Page) : reachable p -> consistent p.
Proof.
  induction 1 as [p Hinit | p q _ IH Hev].
  - now apply initial_consistent.
  - destruct Hev.
    + now apply consistent_input.
    + now apply (consistent_render rows).
    + now apply consistent_process.
    + now apply (consistent_response m).
Qed.

(** C4.  On every page the events lead to, when the provider fails the
    request outstanding for a row (no response, or one without success),
    the callback completes: the row, which was in flight, is done, with
    an empty annotation; nothing is sent again; the error is written to
    the console; the table is otherwise as it was. *)
Theorem failed_picklist_request_absorbed
  (p : Page) (m : Message) (row : nat) (fieldApiName : string)
  (response : option PicklistResponse) :
  reachable p ->
  In (m, picklistCallback row fieldApiName) (pending p) ->
  failed response = true ->
  let q := onPicklistResponse row fieldApiName response p in
  status row p = Some in_flight /\
  status row q = Some done /\
  (exists r, rowAt row q = Some r /\ annotation r = "") /\
  sent q = sent p /\
  console q = (console p ++ [console_error "Error fetching picklist values:"
                                           (errorOf response)])%list /\
  tableBody q = tableBody p.
Proof.
  intros Hreach Hin Hfail q.
  destruct (reachable_consistent p Hreach row) as [H1 [_ H3]].
  pose proof (pending_request row m fieldApiName _ Hin) as Hsome.
  destruct (H3 Hsome) as [r [Hrow [Hfetched Htext]]].
  destruct (onPicklistResponse_channel row fieldApiName response p) as [Hsent Hpend].
  destruct (onPicklistResponse_failed row fieldApiName response p Hfail) as [Htable Hconsole].
  fold q in Hsent, Hpend, Htable, Hconsole.
  assert (Hrow' : rowAt row q = Some r) by (unfold rowAt in *; now rewrite Htable).
  unfold status. unfold rowAt in Hrow, Hrow'.
  destruct (tableBody p) as [rows|] eqn:T; [| discriminate].
  destruct (tableBody q) as [rows'|] eqn:T'; [| discriminate].
  rewrite Hrow, Hrow', Hfetched, Hpend, !existsb_filter, remove_pending_requests, Nat.eqb_refl.
  destruct (filter (isRequestFor row) (pending p)) as [|x [|y l]] eqn:F;
    [now contradiction Hsome | | simpl in H1; lia].
  simpl. repeat split; try assumption.
  exists r. split; [unfold rowAt; now rewrite T' | unfold annotation; now rewrite Htext].
Qed.

(** C4, on the page with one picklist row, after the pass that sends its
    request: the provider does not answer, the row is done. *)
Lemma failed_picklist_request_absorbed_witness :
  status 0 (onPicklistResponse 0 "Status__c" None (processPicklistRows None picklistPage))
  = Some done.
Proof.
  destruct (failed_picklist_request_absorbed
              (processPicklistRows None picklistPage)
              (fetchPicklistValues "Account" "Status__c"
                                   "https://example.my.salesforce.com" false)
              0 "Status__c" None) as [_ [H _]].
  - apply (reach_event picklistPage); [| apply ev_process].
    apply reach_initial. repeat split. repeat constructor.
  - simpl. left. reflexivity.
  - reflexivity.
  - exact H.
Defined.

(* ------------------------------------------------------------------ *)
(** ** The scenarios, evaluated                                         *)
(* ------------------------------------------------------------------ *)

Example toString_decimal :
  map Js.toString [0; 7; 10; 99; 100; 4294967296]%N
  = ["0"; "7"; "10"; "99"; "100"; "4294967296"].
Proof. reflexivity. Qed.

Example trim_ends : Js.trim "  a b  " = "a b".
Proof. reflexivity. Qed.

Example allocate_free : getUniqueSheetName 3 "Account" [] = Some ("Account", []).
Proof. reflexivity. Qed.

Example allocate_taken :
  getUniqueSheetName 3 "Account" ["Account"] = Some ("Account1", ["Account"]).
Proof. reflexivity. Qed.

(** After nine collisions the suffix has two digits and the base of a
    long name loses one more character. *)
Example allocate_two_digits :
  let name := "ABCDEFGHIJKLMNOPQRSTUVWXYZabcde" in
  suffixed name 9 = "ABCDEFGHIJKLMNOPQRSTUVWXYZabcd9" /\
  suffixed name 10 = "ABCDEFGHIJKLMNOPQRSTUVWXYZabc10".
Proof. split; reflexivity. Qed.

Example scenarioA :
  exportCurrentObjectFieldsToXLSX (Some scenarioA_rows) (Returned (Some "Account"))
  = Downloaded "Account_fields_export.xlsx"
      [("Account",
        [ [text "Field Label"; text "API Name"; text "Field Type"; text "Picklist Values"];
          [text "Name"; text "Name"; text "Text(500)"; text ""];
          [text "Status"; text "Status__c"; text "Picklist"; text "Active;Inactive"] ])].
Proof. reflexivity. Qed.

Example scenarioB :
  exportSelectedObjectsToXLSX 8 scenarioB_describe scenarioB_objects
  = Some (Downloaded "selected_salesforce_objects_fields_export.xlsx"
      [("Account",
        [ [text "Field Label"; text "API Name"; text "Field Type"; text "Field Length";
           text "Picklist Values"];
          [text "Account Name"; text "Name"; text "Text(255)"; number 255; text ""];
          [text "Owner"; text "OwnerId"; text "Lookup(User)"; text ""; text ""] ]);
       ("Widget",
        [ [text "Field Label"; text "API Name"; text "Field Type"; text "Field Length";
           text "Picklist Values"];
          [text "Widget"; text "Widget__c"; text "Error fetching fields"; text "";
           text ""] ])]).
Proof. reflexivity. Qed.

Example scenarioC :
  match exportSelectedObjectsToXLSX 8 (fun _ => None) scenarioC_objects with
  | Some (Downloaded _ wb) => map fst wb
  | _ => []
  end
  = ["Customer Relationship Assessmen"; "Customer Relationship Assessme1"].
Proof. reflexivity. Qed.

Example enrichment_run :
  let p1 := processPicklistRows None picklistPage in
  let p2 := onPicklistResponse 0 "Status__c"
              (Some (mkPicklist true (Some "Active;Inactive") None)) p1 in
  status 0 picklistPage = Some unprocessed /\
  status 0 p1 = Some in_flight /\
  status 0 p2 = Some done /\
  option_map annotation (rowAt 0 p2) = Some "Active;Inactive" /\
  requestsFor 0 (processPicklistRows None p2) = 1%nat.
Proof. repeat split. Qed.

(* ================================================================== *)
(** * Further properties of the code                                    *)
(* ================================================================== *)

(* ------------------------------------------------------------------ *)
(** ** Sheet names of a workbook                                        *)
(* ------------------------------------------------------------------ *)

Lemma truncate31_length (s : string) : (String.length (truncate31 s) <= 31)%nat.
Proof.
  unfold truncate31. destruct (Nat.ltb_spec 31 (String.length s)) as [H | H]; [| exact H].
  unfold Js.substring0. rewrite length_substring0.
  change (Z.to_nat (Z.max 0 31)) with 31%nat. apply Nat.le_min_l.
Qed.

Lemma truncate31_short (s : string) :
  (String.length s <= 31)%nat -> truncate31 s = s.
Proof.
  intros H. unfold truncate31.
  now destruct (Nat.ltb_spec 31 (String.length s)) as [H' | H']; [lia |].
Qed.

Lemma substring_prefix (m : nat) (s : string) :
  exists rest, s = String.substring 0 m s ++ rest.
Proof.
  revert m; induction s as [|c s IH]; intros [|m]; simpl.
  - now exists "".
  - now exists "".
  - now exists (String c s).
  - destruct (IH m) as [rest E]. exists rest. now rewrite <- E.
Qed.

Lemma tried_length (sheetName : string) (m : nat) :
  (String.length sheetName <= 31)%nat ->
  (N.of_nat m < 10 ^ N.of_nat 31)%N ->
  (String.length (tried sheetName sheetName 1 m) <= 31)%nat.
Proof.
  intros Hlen Hm. destruct m as [|m]; [exact Hlen |].
  rewrite tried_suffixed, length_suffixed.
  assert (String.length (Js.toString (N.of_nat (S m))) <= 31)%nat
    by (apply toString_length_le; [lia | exact Hm]).
  lia.
Qed.

(** The names the export loop gives: none twice, none longer than 31
    characters, and the label itself where it is still free. *)
Lemma exportSelected_for_names
  (describe : nat -> option DescribeResponse) (objects : list ObjectRef) :
  forall used,
    (N.of_nat (List.length used + List.length objects) <= maxArrayLength)%N ->
    exists names,
      List.length names = List.length objects /\
      (forall fuel i wb,
         (31 * (List.length used + List.length objects) + 2 <= fuel)%nat ->
         exportSelected_for fuel describe i objects wb used
         = Some ((wb ++ combine names (describedTables describe i objects))%list,
                 (used ++ names)%list)) /\
      (NoDup used -> NoDup (used ++ names)) /\
      Forall (fun name => (String.length name <= 31)%nat) names /\
      (forall k obj,
         nth_error objects k = Some obj ->
         ~ In (truncate31 (objectLabel obj)) (used ++ firstn k names) ->
         nth_error names k = Some (truncate31 (objectLabel obj))).
Proof.
  induction objects as [|obj rest IH]; intros used Hmax.
  - exists []. simpl. repeat split.
    + intros fuel i wb _. now rewrite !app_nil_r.
    + now rewrite app_nil_r.
    + constructor.
    + intros [|k] o H; discriminate.
  - simpl in Hmax.
    destruct (getUniqueSheetName_returns (truncate31 (objectLabel obj)) used 31 ltac:(lia))
      as [m [Hm [Hrun [Hfree Hfirst]]]].
    { apply array_bound. lia. }
    assert (Hshort : (String.length (tried (truncate31 (objectLabel obj))
                                           (truncate31 (objectLabel obj)) 1 m) <= 31)%nat).
    { apply tried_length; [apply truncate31_length |].
      assert (N.of_nat (31 * List.length used + 1) < 10 ^ N.of_nat 31)%N
        by (apply array_bound; lia).
      lia. }
    set (r := tried _ _ _ m) in *.
    destruct (IH (used ++ [r])%list) as [names [Hlen [Hrest [Hnd [Hall Hlabel]]]]].
    { rewrite length_app. simpl. lia. }
    exists (r :: names). split; [simpl; now rewrite Hlen |]. split; [| split; [| split]].
    + intros fuel i wb Hfuel. simpl in Hfuel.
      simpl. unfold bind. rewrite (Hrun fuel ltac:(lia)). unfold array_push.
      rewrite Hrest by (rewrite length_app; simpl; lia).
      now rewrite <- !app_assoc.
    + intros H.
      rewrite (app_assoc used [r] names : (used ++ r :: names = (used ++ [r]) ++ names)%list).
      apply Hnd. apply NoDup_app; [exact H | repeat constructor; intros [] | ].
      intros x Hx [<- | []]. now apply Hfree.
    + now constructor.
    + intros [|k] o Ho Hout; simpl in *.
      * injection Ho as <-. rewrite app_nil_r in Hout.
        destruct m as [|m]; [reflexivity |].
        exfalso. apply Hout. apply (Hfirst 0%nat). lia.
      * apply (Hlabel k o Ho). now rewrite <- app_assoc.
Qed.

(** X1.  The sheets of an export of described objects (selected or all)
    have pairwise different names of at most 31 characters. *)
Theorem described_export_sheet_names
  (describe : nat -> option DescribeResponse) (objects : list ObjectRef) :
  (N.of_nat (List.length objects) <= maxArrayLength)%N ->
  exists wb,
    (forall fuel, (31 * List.length objects + 2 <= fuel)%nat ->
       exportSelectedObjectsToXLSX fuel describe objects
       = Some (Downloaded "selected_salesforce_objects_fields_export.xlsx" wb) /\
       forall rows resolve,
         rows <> [] -> listedObjects resolve 0 rows = Returned objects ->
         exportFullDatabaseToXLSX fuel (Some rows) resolve describe
         = Some (Downloaded "salesforce_objects_fields_export.xlsx" wb)) /\
    NoDup (map fst wb) /\
    Forall (fun sheet => (String.length (fst sheet) <= 31)%nat) wb.
Proof.
  intros Hmax.
  destruct (exportSelected_for_names describe objects []) as [names [Hlen [Hrun [Hnd [Hall _]]]]];
    [simpl; lia |].
  exists (combine names (describedTables describe 0 objects)).
  assert (Hfst : map fst (combine names (describedTables describe 0 objects)) = names)
    by (apply map_fst_combine; now rewrite describedTables_length).
  split; [| split].
  - intros fuel Hfuel. split.
    + unfold exportSelectedObjectsToXLSX. now rewrite (Hrun fuel 0%nat []) by (simpl; lia).
    + intros rows resolve Hne Hobjs. unfold exportFullDatabaseToXLSX.
      destruct rows as [|row rows]; [congruence |].
      rewrite Hobjs, exportFull_for_eq. now rewrite (Hrun fuel 0%nat []) by (simpl; lia).
  - rewrite Hfst. apply (Hnd (NoDup_nil _)).
  - apply Forall_forall. intros [name table] Hin. simpl.
    rewrite Forall_forall in Hall. apply Hall. rewrite <- Hfst.
    apply in_map_iff. now exists (name, table).
Qed.

Lemma described_export_sheet_names_witness :
  exists wb,
    exportSelectedObjectsToXLSX 64 (fun _ => None) scenarioC_objects
    = Some (Downloaded "selected_salesforce_objects_fields_export.xlsx" wb) /\
    NoDup (map fst wb).
Proof.
  destruct (described_export_sheet_names (fun _ => None) scenarioC_objects)
    as [wb [Hrun [Hnd _]]].
  - vm_compute. discriminate.
  - exists wb. split; [apply (Hrun 64%nat); simpl; lia | exact Hnd].
Defined.

(** X2.  An object whose label, cut to 31 characters, is not the name of
    an earlier sheet gets that label as the name of its sheet. *)
Theorem described_export_keeps_free_label
  (describe : nat -> option DescribeResponse) (objects : list ObjectRef)
  (k : nat) (obj : ObjectRef) :
  (N.of_nat (List.length objects) <= maxArrayLength)%N ->
  nth_error objects k = Some obj ->
  exists wb,
    (forall fuel, (31 * List.length objects + 2 <= fuel)%nat ->
       exportSelectedObjectsToXLSX fuel describe objects
       = Some (Downloaded "selected_salesforce_objects_fields_export.xlsx" wb)) /\
    (~ In (truncate31 (objectLabel obj)) (map fst (firstn k wb)) ->
     nth_error wb k
     = Some (truncate31 (objectLabel obj), describeData obj (describe k))).
Proof.
  intros Hmax Hk.
  destruct (exportSelected_for_names describe objects []) as [names [Hlen [Hrun [_ [_ Hlabel]]]]];
    [simpl; lia |].
  exists (combine names (describedTables describe 0 objects)).
  split.
  - intros fuel Hfuel.
    unfold exportSelectedObjectsToXLSX. now rewrite (Hrun fuel 0%nat []) by (simpl; lia).
  - intros Hfree. apply nth_error_combine.
    + apply (Hlabel k obj Hk). simpl.
      rewrite combine_firstn, map_fst_combine in Hfree; [exact Hfree |].
      rewrite !length_firstn, describedTables_length. lia.
    + apply (describedTables_nth describe objects 0 k obj Hk).
Qed.

Lemma described_export_keeps_free_label_witness :
  exists wb,
    exportSelectedObjectsToXLSX 64 scenarioB_describe scenarioB_objects
    = Some (Downloaded "selected_salesforce_objects_fields_export.xlsx" wb) /\
    option_map fst (nth_error wb 1) = Some "Widget".
Proof.
  destruct (described_export_keeps_free_label scenarioB_describe scenarioB_objects 1
              (mkObject "Widget" "Widget__c")) as [wb [Hrun Hname]].
  - vm_compute. discriminate.
  - reflexivity.
  - exists wb. pose proof (Hrun 64%nat ltac:(simpl; lia)) as H64. split; [exact H64 |].
    rewrite Hname; [reflexivity |].
    vm_compute in H64. injection H64 as <-. simpl. intros [H | []]. discriminate.
Defined.

(* ------------------------------------------------------------------ *)
(** ** Field types, again                                               *)
(* ------------------------------------------------------------------ *)




(* ------------------------------------------------------------------ *)
(** ** The shape of the exported tables                                 *)
(* ------------------------------------------------------------------ *)

Lemma flat_map_currentRow_length (rows : list Row) :
  List.length (flat_map currentRow rows)
  = List.length (filter (fun row => (3 <=? List.length (cells row))%nat) rows).
Proof.
  induction rows as [|row rows IH]; [reflexivity |].
  cbn [flat_map filter]. rewrite length_app, IH. unfold currentRow.
  destruct (Nat.ltb_spec (List.length (cells row)) 3) as [H | H].
  - rewrite (proj2 (Nat.leb_gt 3 _)) by lia. reflexivity.
  - rewrite (proj2 (Nat.leb_le 3 _)) by lia. reflexivity.
Qed.

Lemma flat_map_currentRow_width (rows : list Row) :
  Forall (fun line => List.length line = 4%nat) (flat_map currentRow rows).
Proof.
  induction rows as [|row rows IH]; simpl; [constructor |].
  apply Forall_app. split; [| exact IH]. unfold currentRow.
  destruct (List.length (cells row) <? 3)%nat; repeat constructor.
Qed.

(** X4.  The export of the current object skips the rows with fewer than
    three cells: its one sheet has the header and one line per row of at
    least three cells, every line of four cells.  The sheet is named by
    the first 31 characters of the object name, the file by the whole
    name, and the name is "Object" when none could be determined. *)
Theorem current_export_shape (rows : list Row) (apiName : option string) :
  exists objectName table,
    exportCurrentObjectFieldsToXLSX (Some rows) (Returned apiName)
    = Downloaded (objectName ++ "_fields_export.xlsx")
                 [(Js.substring0 31 objectName, table)] /\
    objectName = match apiName with
                 | None | Some EmptyString => "Object"
                 | Some name => name
                 end /\
    List.length table
    = S (List.length (filter (fun row => (3 <=? List.length (cells row))%nat) rows)) /\
    Forall (fun line => List.length line = 4%nat) table.
Proof.
  unfold exportCurrentObjectFieldsToXLSX.
  set (objectName := match apiName with
                     | Some n => if String.eqb n "" then "Object" else n
                     | None => "Object"
                     end).
  exists objectName, (currentData rows).
  split; [| split; [| split]].
  - f_equal. f_equal. f_equal. unfold truncate31.
    destruct (Nat.ltb_spec 31 (String.length objectName)) as [H | H]; [reflexivity |].
    unfold Js.substring0. change (Z.to_nat (Z.max 0 31)) with 31%nat.
    destruct (substring_prefix 31 objectName) as [rest E].
    assert (L : String.length (String.substring 0 31 objectName) = String.length objectName).
    { rewrite length_substring0. lia. }
    rewrite E in L at 2. rewrite length_append in L.
    destruct rest; [| simpl in L; lia].
    rewrite append_nil_r in E. exact E.
  - unfold objectName. destruct apiName as [[|c n]|]; reflexivity.
  - unfold currentData. cbn [List.length]. now rewrite flat_map_currentRow_length.
  - unfold currentData. constructor; [reflexivity | apply flat_map_currentRow_width].
Qed.

Lemma describeData_shape (obj : ObjectRef) (response : option DescribeResponse) :
  Forall (fun line => List.length line = 5%nat) (describeData obj response) /\
  List.length (describeData obj response)
  = match describedFields response with
    | Some fields => S (List.length fields)
    | None => 2%nat
    end.
Proof.
  unfold describeData. destruct (describedFields response) as [fields|]; split;
    try reflexivity.
  - constructor; [reflexivity |]. apply Forall_forall. intros line Hin.
    apply in_map_iff in Hin. now destruct Hin as [field [<- _]].
  - simpl. now rewrite length_map.
  - repeat constructor.
Qed.

(** X5.  In the export of selected or of all objects every line of every
    sheet has five cells, and the sheet of an object has one line per
    described field after the header: an object described with no field
    gets a sheet of the header alone, an object that could not be
    described a sheet of two lines. *)
Theorem described_export_shape
  (describe : nat -> option DescribeResponse) (objects : list ObjectRef) :
  (N.of_nat (List.length objects) <= maxArrayLength)%N ->
  exists wb,
    (forall fuel, (31 * List.length objects + 2 <= fuel)%nat ->
       exportSelectedObjectsToXLSX fuel describe objects
       = Some (Downloaded "selected_salesforce_objects_fields_export.xlsx" wb) /\
       forall rows resolve,
         rows <> [] -> listedObjects resolve 0 rows = Returned objects ->
         exportFullDatabaseToXLSX fuel (Some rows) resolve describe
         = Some (Downloaded "salesforce_objects_fields_export.xlsx" wb)) /\
    (forall name table,
       In (name, table) wb -> Forall (fun line => List.length line = 5%nat) table) /\
    (forall i name table,
       nth_error wb i = Some (name, table) ->
       List.length table
       = match describedFields (describe i) with
         | Some fields => S (List.length fields)
         | None => 2%nat
         end).
Proof.
  intros Hmax.
  destruct (described_export_runs describe objects Hmax) as [wb [Hrun [Hlen [_ Hnth]]]].
  exists wb. split; [exact Hrun |].
  assert (Hsheet : forall i name table,
            nth_error wb i = Some (name, table) ->
            exists obj, table = describeData obj (describe i)).
  { intros i name table Hi.
    assert (Hlt : (i < List.length objects)%nat).
    { rewrite <- Hlen. apply nth_error_Some. congruence. }
    destruct (nth_error objects i) as [obj|] eqn:Eo;
      [| apply nth_error_None in Eo; lia].
    destruct (Hnth i obj Eo) as [name' Hn]. rewrite Hn in Hi. injection Hi as _ <-.
    now exists obj. }
  split.
  - intros name table Hin. apply In_nth_error in Hin. destruct Hin as [i Hi].
    destruct (Hsheet i name table Hi) as [obj ->]. apply describeData_shape.
  - intros i name table Hi.
    destruct (Hsheet i name table Hi) as [obj ->]. apply describeData_shape.
Qed.

Lemma described_export_shape_witness :
  exists wb,
    exportSelectedObjectsToXLSX 64 scenarioB_describe scenarioB_objects
    = Some (Downloaded "selected_salesforce_objects_fields_export.xlsx" wb) /\
    forall name table,
      In (name, table) wb -> Forall (fun line => List.length line = 5%nat) table.
Proof.
  destruct (described_export_shape scenarioB_describe scenarioB_objects)
    as [wb [Hrun [Hwidth _]]].
  - vm_compute. discriminate.
  - exists wb. split; [apply (Hrun 64%nat); simpl; lia | exact Hwidth].
Defined.

(* ------------------------------------------------------------------ *)
(** ** Enrichment, again                                                *)
(* ------------------------------------------------------------------ *)

Section SuccessfulResponse.

Variables (i : nat) (fieldApiName : string) (data err : option string).
Variable p : Page.

Let picklistText := match data with Some t => t | None => "" end.
Let q := onPicklistResponse i fieldApiName (Some (mkPicklist true data err)) p.

(** What a successful response does to the rows: the answered row takes
    the text, and every row is filtered again when Quick Find is set up. *)
Lemma onPicklistResponse_success_rowAt (j : nat) :
  rowAt j q
  = option_map
      (fun r =>
         let r1 := if Nat.eqb i j
                   then set_title (Some picklistText) (set_picklistText picklistText r)
                   else r in
         match customQuickFind p with
         | Some value => filterRow (Js.toLowerCase (Js.trim value)) r1
         | None => r1
         end)
      (rowAt j p).
Proof.
  unfold q, onPicklistResponse, rowAt. simpl.
  destruct (tableBody p) as [rows|] eqn:T; simpl.
  - destruct (customQuickFind p) as [value|]; simpl.
    + rewrite nth_error_map, nth_error_update_row.
      destruct (nth_error rows j); reflexivity.
    + rewrite nth_error_update_row. destruct (nth_error rows j); reflexivity.
  - destruct (customQuickFind p); simpl; unfold onQuickFindInput; simpl;
      rewrite T; simpl; now rewrite ?T.
Qed.

End SuccessfulResponse.

Lemma annotation_filterRow (query : string) (row : Row) :
  annotation (filterRow query row) = annotation row.
Proof.
  unfold annotation. now rewrite (proj1 (proj2 (filterRow_keeps query row))).
Qed.

Lemma annotation_set (t : string) (row : Row) :
  annotation (set_title (Some t) (set_picklistText t row)) = t.
Proof. unfold annotation, set_title. simpl. now destruct (cells row). Qed.

(** X6.  On every page the events lead to, a successful response to the
    request outstanding for a row stores the returned text (the empty
    text when the response has none) as the annotation of the row, which
    is then done, and sends nothing.  If Quick Find is set up, the whole
    table is filtered again with the text in the box: every row of at
    least three cells is then visible exactly when the text finds it. *)
Theorem successful_picklist_response_stored
  (p : Page) (m : Message) (row : nat) (fieldApiName : string) (data err : option string) :
  reachable p ->
  In (m, picklistCallback row fieldApiName) (pending p) ->
  let q := onPicklistResponse row fieldApiName (Some (mkPicklist true data err)) p in
  status row p = Some in_flight /\
  status row q = Some done /\
  (exists r, rowAt row q = Some r /\
             annotation r = match data with Some t => t | None => "" end) /\
  sent q = sent p /\
  (forall value j r,
     customQuickFind p = Some value ->
     rowAt j q = Some r ->
     (3 <= List.length (cells r))%nat ->
     (visible r = true <-> found (Js.trim value) r)).
Proof.
  intros Hreach Hin q.
  destruct (reachable_consistent p Hreach row) as [H1 [_ H3]].
  pose proof (pending_request row m fieldApiName _ Hin) as Hsome.
  destruct (H3 Hsome) as [r0 [Hrow [Hfetched Htext]]].
  destruct (onPicklistResponse_channel row fieldApiName
              (Some (mkPicklist true data err)) p) as [Hsent Hpend].
  destruct (onPicklistResponse_rowAt row fieldApiName
              (Some (mkPicklist true data err)) p row) as [g [Hg Hkeep]].
  pose proof (onPicklistResponse_success_rowAt row fieldApiName data err p) as Hrows.
  fold q in Hsent, Hpend, Hg, Hrows.
  assert (Hf : isFetched (g r0) = true)
    by (rewrite (isFetched_eq _ _ (proj1 (Hkeep r0))); exact Hfetched).
  rewrite Hrow in Hg. simpl in Hg.
  split; [| split; [| split; [| split]]].
  - unfold status. unfold rowAt in Hrow.
    destruct (tableBody p) as [rows|]; [| discriminate].
    rewrite Hrow, Hfetched, existsb_filter.
    now destruct (filter (isRequestFor row) (pending p)).
  - unfold status. unfold rowAt in Hg.
    destruct (tableBody q) as [rows|]; [| discriminate].
    rewrite Hg, Hf, Hpend, existsb_filter, remove_pending_requests, Nat.eqb_refl.
    destruct (filter (isRequestFor row) (pending p)) as [|x [|y l]];
      [reflexivity | reflexivity | simpl in H1; lia].
  - rewrite (Hrows row), Hrow, Nat.eqb_refl. simpl.
    eexists. split; [reflexivity |].
    destruct (customQuickFind p); [rewrite annotation_filterRow |]; apply annotation_set.
  - exact Hsent.
  - intros value j r Hqf Hr Hcells.
    rewrite (Hrows j), Hqf in Hr.
    destruct (rowAt j p) as [rj|]; [| discriminate]. simpl in Hr. injection Hr as <-.
    set (r1 := if Nat.eqb row j then _ else rj) in *.
    assert (Hc : cells (filterRow (Js.toLowerCase (Js.trim value)) r1) = cells r1)
      by apply filterRow_keeps.
    rewrite Hc in Hcells.
    rewrite (visible_filterRow _ _ Hcells).
    unfold found. rewrite annotation_filterRow.
    unfold cell. rewrite Hc. apply isVisible_found.
Qed.

Lemma successful_picklist_response_stored_witness :
  option_map annotation
    (rowAt 0 (onPicklistResponse 0 "Status__c"
                (Some (mkPicklist true (Some "Active;Inactive") None))
                (processPicklistRows None picklistPage)))
  = Some "Active;Inactive".
Proof.
  destruct (successful_picklist_response_stored
              (processPicklistRows None picklistPage)
              (fetchPicklistValues "Account" "Status__c"
                                   "https://example.my.salesforce.com" false)
              0 "Status__c" (Some "Active;Inactive") None) as [_ [_ [[r [Hr Ha]] _]]].
  - apply (reach_event picklistPage); [| apply ev_process].
    apply reach_initial. repeat split. repeat constructor.
  - simpl. left. reflexivity.
  - rewrite Hr. simpl. now rewrite Ha.
Defined.

(** Rows that keep their flag, under the same requests sent, keep the
    second invariant. *)
Lemma sentOnce_rows (p q : Page) :
  (forall i, requestsFor i q = requestsFor i p) ->
  (forall i, exists g,
      rowAt i q = option_map g (rowAt i p) /\
      forall row, picklistFetched (g row) = picklistFetched row) ->
  sentOnce p -> sentOnce q.
Proof.
  intros Hsent Hrows Hp i.
  destruct (Hp i) as [H1 [H2 H3]]. destruct (Hrows i) as [g [Hg Hkeep]].
  rewrite Hsent. split; [exact H1 | split].
  - intros row' Hrow' Hf. rewrite Hg in Hrow'.
    destruct (rowAt i p) as [row|]; [| discriminate]. injection Hrow' as <-.
    apply (H2 row eq_refl). now rewrite <- (isFetched_eq _ _ (Hkeep row)).
  - intros Hnone. rewrite Hg in Hnone. apply H3.
    now destruct (rowAt i p).
Qed.

Lemma initial_sentOnce (p : Page) : initial p -> sentOnce p.
Proof.
  intros [Hs _] i. unfold requestsFor. rewrite Hs. simpl. repeat split; lia.
Qed.

Lemma sentOnce_process (response : option ResolveResponse) (p : Page) :
  sentOnce p -> sentOnce (processPicklistRows response p).
Proof.
  intros Hp i. destruct (Hp i) as [H1 [H2 H3]].
  destruct (rowAt i p) as [row|] eqn:R.
  - destruct (pass_row response p i row R) as [_ Hpass].
    destruct (objectNameOf response p) as [name|]; destruct Hpass as [Hrow Hreq];
      rewrite Hrow, Hreq.
    + unfold requested, processRow.
      destruct (isFetched row) eqn:F; simpl.
      * split; [lia | split; [intros r [= <-] Hf; congruence | discriminate]].
      * rewrite (H2 row eq_refl F).
        destruct (List.length (cells row) <? 3)%nat; simpl.
        -- split; [lia | split; [intros r [= <-] _; reflexivity | discriminate]].
        -- destruct (Js.includes _ _); simpl.
           ++ split; [lia | split; [intros r [= <-] Hf; discriminate | discriminate]].
           ++ split; [lia | split; [| discriminate]].
              intros r [= <-] Hf. reflexivity.
    + split; [exact H1 | split; [| discriminate]].
      intros r [= <-]. now apply H2.
  - assert (Hsame : requestsFor i (processPicklistRows response p) = requestsFor i p
                    /\ rowAt i (processPicklistRows response p) = None).
    { unfold requestsFor. destruct (objectNameOf response p) as [name|] eqn:E.
      - destruct (pass_with_name response p i name E) as [Hrow [_ [Hsent _]]].
        rewrite R in Hrow, Hsent. rewrite Hsent, app_nil_r. now split.
      - destruct (pass_without_name response p i E) as [Ht [_ [_ Hsent]]].
        rewrite Hsent. split; [reflexivity |]. unfold rowAt in *. now rewrite Ht. }
    destruct Hsame as [Hreq Hrow]. rewrite Hreq, Hrow.
    split; [exact H1 | split; [discriminate | intros _; now apply H3]].
Qed.

Lemma sentOnce_render (rows more : list Row) (p : Page) :
  tableBody p = Some rows -> Forall fresh more ->
  sentOnce p -> sentOnce (set_tableBody (Some (rows ++ more)%list) p).
Proof.
  intros T Hmore Hp i. destruct (Hp i) as [H1 [H2 H3]].
  unfold rowAt, requestsFor in *. rewrite T in *. simpl.
  split; [exact H1 |].
  destruct (nth_error rows i) as [row|] eqn:E.
  - rewrite nth_error_app1 by (apply nth_error_Some; congruence). rewrite E.
    split; [exact H2 | discriminate].
  - split; [intros row _ _ | intros _]; now apply H3.
Qed.

Lemma reachable_sentOnce (p : Page) : reachable p -> sentOnce p.
Proof.
  induction 1 as [p Hinit | p q _ IH Hev].
  - now apply initial_sentOnce.
  - destruct Hev as [value p _ | rows more p T Hmore | response p | m row f response p _].
    + revert IH. apply sentOnce_rows.
      * intros i. unfold requestsFor.
        now rewrite (proj1 (onQuickFindInput_channel _ _)).
      * intros i. exists (filterRow (Js.toLowerCase (Js.trim value))).
        split; [rewrite rowAt_onQuickFindInput; reflexivity |].
        intros r. apply filterRow_keeps.
    + now apply (sentOnce_render rows).
    + now apply sentOnce_process.
    + revert IH. apply sentOnce_rows.
      * intros i. unfold requestsFor.
        now rewrite (proj1 (onPicklistResponse_channel _ _ _ _)).
      * intros i.
        destruct (onPicklistResponse_rowAt row f response p i) as [g [Hg Hkeep]].
        exists g. split; [exact Hg | intros r; apply Hkeep].
Qed.

(** X7.  Over the whole life of a page, whatever the user types, the
    host renders, the passes do and the provider answers, at most one
    picklist request is ever sent for a row and at most one is
    outstanding; for a row that is still unprocessed none has been sent
    and none is outstanding. *)
Theorem one_request_per_row (p : Page) (i : nat) :
  reachable p ->
  (requestsFor i p <= 1)%nat /\
  (List.length (filter (isRequestFor i) (pending p)) <= 1)%nat /\
  (status i p = Some unprocessed ->
   requestsFor i p = 0%nat /\ filter (isRequestFor i) (pending p) = []).
Proof.
  intros Hreach.
  destruct (reachable_sentOnce p Hreach i) as [H1 [H2 _]].
  destruct (reachable_consistent p Hreach i) as [C1 [C2 _]].
  split; [exact H1 | split; [exact C1 |]].
  unfold status. intros Hs.
  destruct (rowAt i p) as [row|] eqn:R; unfold rowAt in R;
    destruct (tableBody p) as [rows|]; try discriminate; rewrite R in Hs;
    [| discriminate].
  destruct (isFetched row) eqn:F;
    [destruct (existsb (isRequestFor i) (pending p)); discriminate |].
  split; [now apply (H2 row) | now apply (C2 row)].
Qed.

Lemma one_request_per_row_witness :
  (requestsFor 0 (processPicklistRows None (processPicklistRows None picklistPage)) <= 1)%nat.
Proof.
  apply (one_request_per_row
           (processPicklistRows None (processPicklistRows None picklistPage)) 0).
  apply (reach_event (processPicklistRows None picklistPage)); [| apply ev_process].
  apply (reach_event picklistPage); [| apply ev_process].
  apply reach_initial. repeat split. repeat constructor.
Defined.

Lemma processRow_processed (name name' origin origin' : string) (i j : nat) (row : Row) :
  processRow name' origin' j (fst (processRow name origin i row))
  = (fst (processRow name origin i row), []).
Proof.
  unfold processRow.
  destruct (isFetched row) eqn:F; simpl; [now rewrite F |].
  destruct (List.length (cells row) <? 3)%nat eqn:L; simpl; [now rewrite F, L |].
  destruct (Js.includes _ _); reflexivity.
Qed.

Lemma processRows_processed (name name' origin origin' : string) (rows : list Row) :
  forall i j,
    processRows name' origin' j (fst (processRows name origin i rows))
    = (fst (processRows name origin i rows), []).
Proof.
  induction rows as [|row rows IH]; intros i j; simpl; [reflexivity |].
  pose proof (processRow_processed name name' origin origin' i j row) as Hrow.
  destruct (processRow name origin i row) as [row' msgs].
  specialize (IH (S i) (S j)).
  destruct (processRows name origin (S i) rows) as [rows' msgs'].
  simpl in *. now rewrite Hrow, IH.
Qed.

(** What the body of the loop leaves of a row. *)
Lemma processRow_marks (name origin : string) (i : nat) (row : Row) :
  let row' := fst (processRow name origin i row) in
  cells row' = cells row /\ display row' = display row /\
  ((List.length (cells row) < 3)%nat -> row' = row) /\
  ((3 <= List.length (cells row))%nat -> isFetched row' = true).
Proof.
  unfold processRow.
  destruct (isFetched row) eqn:F; simpl; [repeat split; congruence |].
  destruct (Nat.ltb_spec (List.length (cells row)) 3) as [L | L]; simpl;
    [repeat split; intros; lia |].
  destruct (Js.includes _ _); simpl.
  - repeat split; intros; lia.
  - unfold set_title. simpl. destruct (cells row); repeat split; intros; simpl in *; lia.
Qed.

(** X8.  Once the object name is known, a pass marks every row of at
    least three cells as fetched and leaves the rows of fewer cells, and
    the cells and visibility of every row, as they are; a pass that
    follows directly, under whatever object name, changes nothing on the
    page and sends nothing. *)
Theorem pass_marks_and_settles (name name' : string) (p : Page) :
  let q := processPicklistRows_forEach name p in
  processPicklistRows_forEach name' q = q /\
  forall i row,
    rowAt i p = Some row ->
    exists row',
      rowAt i q = Some row' /\
      cells row' = cells row /\ display row' = display row /\
      ((List.length (cells row) < 3)%nat -> row' = row) /\
      ((3 <= List.length (cells row))%nat -> isFetched row' = true).
Proof.
  unfold processPicklistRows_forEach, rowAt.
  destruct (tableBody p) as [rows|] eqn:T; [| rewrite T; split; [reflexivity | discriminate]].
  pose proof (processRows_processed name name' (origin p) (origin p) rows 0 0) as Hagain.
  pose proof (processRows_rowAt name (origin p) rows 0) as Hrow.
  destruct (processRows name (origin p) 0 rows) as [rows' msgs]. simpl in *.
  rewrite Hagain, !app_nil_r. split; [reflexivity |].
  intros i row Hi. rewrite Hrow, Hi. simpl.
  eexists. split; [reflexivity |]. apply processRow_marks.
Qed.

Lemma pass_marks_and_settles_witness :
  exists row',
    rowAt 0 (processPicklistRows_forEach "Account" picklistPage) = Some row' /\
    isFetched row' = true.
Proof.
  destruct (proj2 (pass_marks_and_settles "Account" "Account" picklistPage) 0
              (mkRow ["Status"; "Status__c"; "Picklist"] None None "" None) eq_refl)
    as [row' [Hrow [_ [_ [_ Hf]]]]].
  exists row'. split; [exact Hrow | apply Hf; simpl; lia].
Defined.

(* ------------------------------------------------------------------ *)
(** ** The object name                                                  *)
(* ------------------------------------------------------------------ *)

Lemma endsWith_spec (s q : string) :
  Js.endsWith s q = true -> exists a, s = a ++ q.
Proof.
  induction s as [|c s IH]; cbn [Js.endsWith]; rewrite orb_true_iff.
  - intros [H | H]; [| discriminate].
    apply String.eqb_eq in H. subst. now exists "".
  - intros [H | H].
    + apply String.eqb_eq in H. rewrite <- H. now exists "".
    + destruct (IH H) as [a ->]. now exists (String c a).
Qed.

Lemma allChars_append (f : ascii -> bool) (a b : string) :
  allChars f (a ++ b) = allChars f a && allChars f b.
Proof.
  induction a as [|c a IH]; simpl; [reflexivity |].
  now rewrite IH, andb_assoc.
Qed.

(** The name of a custom object is never taken for a record id. *)
Lemma custom_name_is_no_id (identifier : string) :
  Js.endsWith identifier "__c" = true -> isSalesforceId identifier = false.
Proof.
  intros H. destruct (endsWith_spec _ _ H) as [a ->].
  unfold isSalesforceId. rewrite allChars_append. simpl.
  now rewrite !andb_false_r.
Qed.

(** X9.  When the identifier in the address is a record id and its
    resolution fails, a pass enriches nothing: table and outstanding
    requests stay as they are and only the resolution request has been
    sent.  With a response that reports failure the console gets the two
    errors; with no response at all the pass ends in an exception and
    writes nothing to the console. *)
Theorem unresolved_object_name_stops_pass
  (p : Page) (identifier : string) (rows : list Row) (response : option ResolveResponse) :
  urlIdentifier p = Some identifier ->
  isSalesforceId identifier = true ->
  tableBody p = Some rows ->
  match response with Some r => resolve_success r = false | None => True end ->
  let q := processPicklistRows response p in
  tableBody q = Some rows /\
  pending q = pending p /\
  sent q = (sent p ++ [(fetchCustomObjectApiName identifier (origin p), resolveCallback)])%list /\
  console q
  = match response with
    | Some r =>
        (console p ++ [console_error "Failed to fetch custom object API name:" (resolve_error r);
                       console_error "Could not determine object name." None])%list
    | None => console p
    end /\
  fst (getObjectApiNameFromURL response p)
  = match response with Some _ => Returned None | None => Thrown end.
Proof.
  intros U I T F. unfold processPicklistRows, getObjectApiNameFromURL.
  rewrite T, U, I. destruct response as [r|].
  - rewrite F. simpl. rewrite T, <- app_assoc. now repeat split.
  - simpl. now repeat split.
Qed.

Lemma unresolved_object_name_stops_pass_witness :
  console (processPicklistRows None
             (mkPage "https://example.my.salesforce.com" (Some "01I5g000000abcdEAA")
                     (tableBody picklistPage) None [] [] []))
  = [].
Proof.
  apply (unresolved_object_name_stops_pass
           (mkPage "https://example.my.salesforce.com" (Some "01I5g000000abcdEAA")
                   (tableBody picklistPage) None [] [] [])
           "01I5g000000abcdEAA"
           [mkRow ["Status"; "Status__c"; "Picklist"] None None "" None] None);
    reflexivity || exact I.
Defined.

(** X10.  An identifier that ends in "__c", the name of a custom object,
    is used as it is: no message is sent for it, a pass works under this
    name, and the export of the current object names its file after it. *)
Theorem custom_object_name_used_as_is
  (p : Page) (identifier : string) (response : option ResolveResponse) (rows : list Row) :
  urlIdentifier p = Some identifier ->
  Js.endsWith identifier "__c" = true ->
  getObjectApiNameFromURL response p = (Returned (Some identifier), p) /\
  objectNameOf response p = Some identifier /\
  exists table,
    exportCurrentObjectFieldsToXLSX (Some rows) (fst (getObjectApiNameFromURL response p))
    = Downloaded (identifier ++ "_fields_export.xlsx") [(truncate31 identifier, table)].
Proof.
  intros U E.
  assert (Hget : getObjectApiNameFromURL response p = (Returned (Some identifier), p)).
  { unfold getObjectApiNameFromURL. now rewrite U, (custom_name_is_no_id _ E). }
  assert (Hne : String.eqb identifier "" = false).
  { destruct identifier; [discriminate | reflexivity]. }
  split; [exact Hget | split].
  - unfold objectNameOf. now rewrite Hget, Hne.
  - rewrite Hget. unfold exportCurrentObjectFieldsToXLSX. simpl. rewrite Hne. eauto.
Qed.

Lemma custom_object_name_used_as_is_witness :
  objectNameOf None
    (mkPage "https://example.my.salesforce.com" (Some "Invoice__c") None None [] [] [])
  = Some "Invoice__c".
Proof.
  apply (custom_object_name_used_as_is
           (mkPage "https://example.my.salesforce.com" (Some "Invoice__c") None None [] [] [])
           "Invoice__c" None []); reflexivity.
Defined.

(* ------------------------------------------------------------------ *)
(** ** The objects of the home page                                     *)
(* ------------------------------------------------------------------ *)

Lemma listedObjects_spec (resolve : nat -> option ResolveResponse) (rows : list HomeRow) :
  forall i,
    match listedObjects resolve i rows with
    | Thrown => exists k row, nth_error rows k = Some row /\ unanswered resolve (i + k) row
    | Returned objects =>
        (forall k row, nth_error rows k = Some row -> ~ unanswered resolve (i + k) row) /\
        List.length objects
        = List.length (filter (fun row => match linkIdentifier row with
                                          | Some _ => true
                                          | None => false
                                          end) rows)
    end.
Proof.
  induction rows as [|row rest IH]; intros i.
  - simpl. split; [intros [|k] row H; discriminate | reflexivity].
  - specialize (IH (S i)). cbn [listedObjects filter].
    destruct (linkIdentifier row) as [identifier|] eqn:L.
    + destruct (isSalesforceId identifier) eqn:I.
      * destruct (resolve i) as [r|] eqn:R.
        -- destruct (listedObjects resolve (S i) rest) as [objects|].
           ++ destruct IH as [IH1 IH2].
              assert (Hthis : ~ unanswered resolve (i + 0) row).
              { rewrite Nat.add_0_r. intros [id [_ [_ H]]]. congruence. }
              destruct (resolve_success r); (split;
                [intros [|k] r0 Hk; simpl in Hk;
                   [injection Hk as <-; exact Hthis
                   | replace (i + S k)%nat with (S i + k)%nat by lia; now apply IH1]
                | simpl; now rewrite IH2]).
           ++ destruct IH as [k [r0 [Hk Hun]]].
              destruct (resolve_success r);
                (exists (S k), r0; split; [exact Hk |];
                 now replace (i + S k)%nat with (S i + k)%nat by lia).
        -- exists 0%nat, row. split; [reflexivity |].
           rewrite Nat.add_0_r. now exists identifier.
      * destruct (listedObjects resolve (S i) rest) as [objects|].
        -- destruct IH as [IH1 IH2]. split; [| simpl; now rewrite IH2].
           intros [|k] r0 Hk; simpl in Hk.
           ++ injection Hk as <-. intros [id [Hid [Hsf _]]]. congruence.
           ++ replace (i + S k)%nat with (S i + k)%nat by lia. now apply IH1.
        -- destruct IH as [k [r0 [Hk Hun]]].
           exists (S k), r0. split; [exact Hk |].
           now replace (i + S k)%nat with (S i + k)%nat by lia.
    + destruct (listedObjects resolve (S i) rest) as [objects|].
      * destruct IH as [IH1 IH2]. split; [| simpl; exact IH2].
        intros [|k] r0 Hk; simpl in Hk.
        -- injection Hk as <-. intros [id [Hid _]]. congruence.
        -- replace (i + S k)%nat with (S i + k)%nat by lia. now apply IH1.
      * destruct IH as [k [r0 [Hk Hun]]].
        exists (S k), r0. split; [exact Hk |].
        now replace (i + S k)%nat with (S i + k)%nat by lia.
Qed.

(** X11.  The objects of the home page are collected one per row with a
    link to an object.  The collection ends in an exception exactly when
    some row links to a record id whose resolution gets no response; the
    export of all objects then downloads nothing.  A resolution that
    answers, with or without success, never ends the export. *)
Theorem home_objects_listed (resolve : nat -> option ResolveResponse) (rows : list HomeRow) :
  (listedObjects resolve 0 rows = Thrown <->
   exists k row, nth_error rows k = Some row /\ unanswered resolve k row) /\
  (forall objects,
     listedObjects resolve 0 rows = Returned objects ->
     List.length objects
     = List.length (filter (fun row => match linkIdentifier row with
                                       | Some _ => true
                                       | None => false
                                       end) rows)) /\
  (forall fuel describe,
     rows <> [] ->
     listedObjects resolve 0 rows = Thrown ->
     exportFullDatabaseToXLSX fuel (Some rows) resolve describe
     = Some (Aborted (console_error "Error exporting full database to XLSX:" None))).
Proof.
  pose proof (listedObjects_spec resolve rows 0) as H.
  split; [| split].
  - split.
    + intros E. rewrite E in H. exact H.
    + intros [k [row [Hk Hun]]].
      destruct (listedObjects resolve 0 rows) as [objects|]; [| reflexivity].
      exfalso. now apply (proj1 H k row Hk).
  - intros objects E. rewrite E in H. apply H.
  - intros fuel describe Hne E. unfold exportFullDatabaseToXLSX.
    destruct rows; [congruence |]. now rewrite E.
Qed.

Lemma home_objects_listed_witness :
  exportFullDatabaseToXLSX 8
    (Some [mkHomeRow (Some "Account") (Some "Account");
           mkHomeRow (Some "01I5g000000abcdEAA") (Some "Invoice")])
    (fun _ => None) (fun _ => None)
  = Some (Aborted (console_error "Error exporting full database to XLSX:" None)).
Proof.
  apply (proj2 (proj2 (home_objects_listed (fun _ => None)
                         [mkHomeRow (Some "Account") (Some "Account");
                          mkHomeRow (Some "01I5g000000abcdEAA") (Some "Invoice")]))).
  - discriminate.
  - reflexivity.
Defined.

(* ------------------------------------------------------------------ *)
(** ** The selection modal                                              *)
(* ------------------------------------------------------------------ *)

(** The modal collects its objects by the same loop. *)
Lemma modalObjects_listedObjects (resolve : nat -> option ResolveResponse)
  (rows : list HomeRow) :
  forall i, modalObjects resolve i rows = listedObjects resolve i rows.
Proof.
  induction rows as [|row rest IH]; intros i; [reflexivity |].
  cbn [modalObjects listedObjects]. now rewrite IH.
Qed.

(** Among objects of different API names, each is the one found by its
    name. *)
Lemma find_by_name (objects : list ObjectRef) (obj : ObjectRef) :
  NoDup (map objectApiName objects) ->
  In obj objects ->
  find (fun o => String.eqb (objectApiName o) (objectApiName obj)) objects = Some obj.
Proof.
  induction objects as [|o objects IH]; intros Hnd Hin; [contradiction |].
  simpl in *. inversion Hnd as [|x l Hout Hnd']; subst.
  destruct Hin as [-> | Hin]; [now rewrite String.eqb_refl |].
  destruct (String.eqb_spec (objectApiName o) (objectApiName obj)) as [E | _].
  - exfalso. apply Hout. rewrite E. now apply in_map.
  - now apply IH.
Qed.

Lemma selectedObjects_cons (objects : list ObjectRef) (obj : ObjectRef) (t : bool)
  (offered : list ObjectRef) (ticks : list bool) :
  selectedObjects objects (tick (t :: ticks) (modalLabels (obj :: offered)))
  = ((if t then
        match find (fun o => String.eqb (objectApiName o) (objectApiName obj)) objects with
        | Some correspondingObj => [correspondingObj]
        | None => []
        end
      else [])
     ++ selectedObjects objects (tick ticks (modalLabels offered)))%list.
Proof. reflexivity. Qed.

Lemma selectedObjects_ticked (objects : list ObjectRef) :
  NoDup (map objectApiName objects) ->
  forall offered ticks,
    incl offered objects ->
    selectedObjects objects (tick ticks (modalLabels offered))
    = map fst (filter snd (combine offered ticks)).
Proof.
  intros Hnd. induction offered as [|obj offered IH]; intros ticks Hincl; [reflexivity |].
  destruct ticks as [|t ticks]; [reflexivity |].
  assert (Hrest : incl offered objects) by (intros x Hx; apply Hincl; now right).
  rewrite selectedObjects_cons, (IH ticks Hrest).
  destruct t; [| reflexivity].
  rewrite (find_by_name objects obj Hnd) by (apply Hincl; now left). reflexivity.
Qed.

(** X12.  The modal offers the objects that the export of all objects
    exports.  When their API names differ from each other, the objects
    handed to the export are those whose boxes are ticked, in the order
    of the list; with every box ticked the export of the selection
    produces the workbook of the export of all objects. *)
Theorem modal_selection_exports_ticked
  (resolve : nat -> option ResolveResponse) (rows : list HomeRow)
  (objects : list ObjectRef) (ticks : list bool) :
  modalObjects resolve 0 rows = Returned objects ->
  NoDup (map objectApiName objects) ->
  listedObjects resolve 0 rows = Returned objects /\
  selectedObjects objects (tick ticks (modalLabels objects))
  = map fst (filter snd (combine objects ticks)) /\
  (rows <> [] ->
   forall fuel describe wb,
     exportSelectedObjectsToXLSX fuel describe
       (selectedObjects objects (tick (map (fun _ => true) objects) (modalLabels objects)))
     = Some (Downloaded "selected_salesforce_objects_fields_export.xlsx" wb) ->
     exportFullDatabaseToXLSX fuel (Some rows) resolve describe
     = Some (Downloaded "salesforce_objects_fields_export.xlsx" wb)).
Proof.
  intros Hmodal Hnd. rewrite modalObjects_listedObjects in Hmodal.
  split; [exact Hmodal | split].
  - apply selectedObjects_ticked; [exact Hnd | apply incl_refl].
  - intros Hne fuel describe wb.
    rewrite (selectedObjects_ticked objects Hnd objects (map (fun _ => true) objects)
               (incl_refl _)).
    assert (Hall : map fst (filter snd (combine objects (map (fun _ => true) objects)))
                   = objects).
    { clear. induction objects as [|o l IH]; simpl; [reflexivity | now rewrite IH]. }
    rewrite Hall. unfold exportSelectedObjectsToXLSX, exportFullDatabaseToXLSX.
    destruct rows; [congruence |]. rewrite Hmodal. intros H.
    pose proof (exportFull_for_eq describe fuel objects 0 [] []) as E.
    destruct (exportSelected_for fuel describe 0 objects [] []) as [[wb' used]|];
      [| discriminate].
    injection H as <-. now rewrite E.
Qed.

Lemma modal_selection_exports_ticked_witness :
  selectedObjects scenarioB_objects (tick [false; true] (modalLabels scenarioB_objects))
  = [mkObject "Widget" "Widget__c"].
Proof.
  apply (modal_selection_exports_ticked (fun _ => None)
           [mkHomeRow (Some "Account") (Some "Account");
            mkHomeRow (Some "Widget__c") (Some "Widget")]
           scenarioB_objects [false; true]).
  - reflexivity.
  - repeat constructor; simpl; intuition discriminate.
Defined.

(** X13.  Whatever the boxes, every object handed to the export is one
    of the offered objects, the first of its API name, and comes from a
    ticked box of that value; when every box carries the API name of an
    offered object, each ticked box, shown or hidden, gives exactly one
    object of its name, in the order of the boxes.  (Of two objects of
    the same API name only the first is ever exported.) *)
Theorem selection_takes_first_by_name (objects : list ObjectRef) (labels : list ModalLabel) :
  (forall obj,
     In obj (selectedObjects objects labels) ->
     In obj objects /\
     find (fun o => String.eqb (objectApiName o) (objectApiName obj)) objects = Some obj /\
     exists label,
       In label labels /\ cb_checked label = true /\ cb_value label = objectApiName obj) /\
  ((forall label, In label labels ->
                  exists obj, In obj objects /\ objectApiName obj = cb_value label) ->
   map objectApiName (selectedObjects objects labels)
   = map cb_value (filter cb_checked labels)).
Proof.
  split.
  - intros obj Hin. unfold selectedObjects in Hin. apply in_flat_map in Hin.
    destruct Hin as [label [Hlabel Hobj]].
    destruct (cb_checked label) eqn:C; [| contradiction].
    destruct (find _ objects) as [o|] eqn:F; [| contradiction].
    destruct Hobj as [<- | []].
    destruct (find_some _ _ F) as [Ho En]. apply String.eqb_eq in En.
    split; [exact Ho | split].
    + now rewrite En.
    + exists label. now repeat split.
  - intros Hvalues. induction labels as [|label labels IH]; [reflexivity |].
    unfold selectedObjects in *. cbn [flat_map filter]. rewrite map_app, IH.
    + destruct (cb_checked label); [| reflexivity].
      destruct (Hvalues label (or_introl eq_refl)) as [obj [Hobj Hname]].
      destruct (find _ objects) as [o|] eqn:F.
      * apply find_some in F. destruct F as [_ En]. apply String.eqb_eq in En.
        simpl. now rewrite En.
      * exfalso. pose proof (find_none _ _ F obj Hobj) as Hno.
        simpl in Hno. rewrite Hname, String.eqb_refl in Hno. discriminate.
    + intros l Hl. apply Hvalues. now right.
Qed.

Lemma selection_takes_first_by_name_witness :
  map objectApiName
    (selectedObjects [mkObject "Plan" "Plan__c"; mkObject "Plan (old)" "Plan__c"]
       [mkLabel "Plan__c" false " Plan" "block"; mkLabel "Plan__c" true " Plan (old)" "none"])
  = ["Plan__c"].
Proof.
  apply (proj2 (selection_takes_first_by_name
                  [mkObject "Plan" "Plan__c"; mkObject "Plan (old)" "Plan__c"]
                  [mkLabel "Plan__c" false " Plan" "block";
                   mkLabel "Plan__c" true " Plan (old)" "none"])).
  intros label [<- | [<- | []]]; exists (mkObject "Plan" "Plan__c"); simpl; auto.
Defined.

Lemma trimStart_head (s : string) :
  match Js.trimStart s with
  | EmptyString => True
  | String c _ => Js.isWhiteSpace c = false
  end.
Proof.
  induction s as [|c s IH]; simpl; [exact I |].
  destruct (Js.isWhiteSpace c) eqn:W; [exact IH | exact W].
Qed.

Lemma trimEnd_head (s : string) (c : ascii) (r : string) :
  Js.trimEnd s = String c r -> exists r', s = String c r'.
Proof.
  destruct s as [|d s]; simpl; [discriminate |].
  destruct (Js.trimEnd s); [destruct (Js.isWhiteSpace d) |]; intros [= <- _]; eauto.
Qed.

(** A query never starts with white space, so the space in front of a
    text plays no part in the search. *)
Lemma includes_after_space (text value : string) :
  Js.includes (" " ++ text) (Js.toLowerCase (Js.trim value))
  = Js.includes text (Js.toLowerCase (Js.trim value)).
Proof.
  cbn [String.append Js.includes].
  destruct (Js.trim value) as [|c r] eqn:E.
  - simpl. now destruct text.
  - unfold Js.trim in E. destruct (trimEnd_head _ _ _ E) as [r' E'].
    pose proof (trimStart_head value) as H. rewrite E' in H.
    cbn [Js.toLowerCase Js.startsWith].
    destruct (Ascii.eqb_spec " " (Js.toLowerCase_char c)) as [Heq | _]; [| reflexivity].
    exfalso. rewrite <- isWhiteSpace_toLowerCase, <- Heq in H. discriminate.
Qed.

(** X14.  The search box of the modal shows a label exactly when the
    label of its object contains the typed text, trimmed and without
    regard to case; the API name is not searched.  Searching changes no
    tick, and the objects handed to the export are the same whether
    their labels are shown or hidden. *)
Theorem modal_search_by_label (value : string) (objects : list ObjectRef)
  (labels : list ModalLabel) :
  map cb_checked (modalSearch value labels) = map cb_checked labels /\
  selectedObjects objects (modalSearch value labels) = selectedObjects objects labels /\
  forall k label text,
    nth_error labels k = Some label ->
    label_text label = " " ++ text ->
    exists label',
      nth_error (modalSearch value labels) k = Some label' /\
      (shown label' = true <-> containsCI text (Js.trim value) = true).
Proof.
  split; [| split].
  - unfold modalSearch. rewrite map_map. reflexivity.
  - unfold selectedObjects, modalSearch.
    induction labels as [|label labels IH]; [reflexivity |].
    cbn [map flat_map cb_checked cb_value]. now rewrite IH.
  - intros k label text Hk Htext. unfold modalSearch.
    rewrite nth_error_map, Hk. simpl. eexists. split; [reflexivity |].
    unfold shown, containsCI. simpl.
    rewrite Htext, toLowerCase_append.
    change (Js.toLowerCase " ") with " ". rewrite includes_after_space.
    now destruct (Js.includes _ _).
Qed.

Lemma modal_search_by_label_witness :
  exists label',
    nth_error (modalSearch " wid " (modalLabels scenarioB_objects)) 1 = Some label' /\
    (shown label' = true <-> containsCI "Widget" (Js.trim " wid ") = true).
Proof.
  apply (proj2 (proj2 (modal_search_by_label " wid " scenarioB_objects
                         (modalLabels scenarioB_objects)))
               1%nat (mkLabel "Widget__c" false " Widget" "block") "Widget");
    reflexivity.
Defined.

Lemma toggle_shown (b : bool) (labels : list ModalLabel) :
  filter shown
    (map (fun label =>
            if shown label
            then mkLabel (cb_value label) b (label_text label) (label_display label)
            else label) labels)
  = map (fun label => mkLabel (cb_value label) b (label_text label) (label_display label))
        (filter shown labels).
Proof.
  induction labels as [|label labels IH]; [reflexivity |].
  cbn [map filter]. destruct (shown label) eqn:S.
  - unfold shown in *. cbn [label_display filter]. rewrite S. cbn [map]. now rewrite IH.
  - rewrite S. exact IH.
Qed.

(** X15.  The toggle button changes the ticks of the shown labels only:
    a hidden label keeps its tick, and nothing but ticks changes.  After
    a click the shown boxes are all ticked if one of them was not, and
    all unticked if all were ticked; so with a label shown, a second
    click undoes what the first did to the state "all ticked".  With no
    label shown a click changes no box and the button reads "Select
    All". *)
Theorem toggle_changes_shown_ticks (labels : list ModalLabel) :
  let allChecked := forallb cb_checked (filter shown labels) in
  let labels' := fst (toggleSelection labels) in
  (forall k label,
     nth_error labels k = Some label ->
     exists label',
       nth_error labels' k = Some label' /\
       cb_value label' = cb_value label /\ label_text label' = label_text label /\
       label_display label' = label_display label /\
       (shown label = false -> label' = label) /\
       (shown label = true -> cb_checked label' = negb allChecked)) /\
  (filter shown labels <> [] ->
   forallb cb_checked (filter shown labels') = negb allChecked) /\
  (filter shown labels = [] ->
   toggleSelection labels = (labels, "Select All")).
Proof.
  cbv zeta. unfold toggleSelection. cbn [fst].
  set (allChecked := forallb cb_checked (filter shown labels)).
  split; [| split].
  - intros k label Hk. rewrite nth_error_map, Hk. simpl.
    eexists. split; [reflexivity |].
    destruct (shown label); simpl; repeat split; intros; congruence.
  - intros Hne. rewrite toggle_shown.
    destruct (filter shown labels) as [|l ls]; [congruence |].
    cbn [map forallb cb_checked].
    destruct (negb allChecked); [| reflexivity].
    clear. induction ls as [|x xs IH]; [reflexivity | exact IH].
  - intros Hnone. unfold allChecked. rewrite Hnone. cbn [forallb negb].
    f_equal. clear allChecked.
    induction labels as [|label labels IH]; [reflexivity |].
    cbn [filter] in Hnone. cbn [map].
    destruct (shown label); [discriminate |]. now rewrite IH.
Qed.

Lemma toggle_changes_shown_ticks_witness :
  map cb_checked
    (fst (toggleSelection
            [mkLabel "Account" false " Account" "block";
             mkLabel "Widget__c" false " Widget" "none"]))
  = [true; false].
Proof.
  destruct (proj1 (toggle_changes_shown_ticks
                     [mkLabel "Account" false " Account" "block";
                      mkLabel "Widget__c" false " Widget" "none"])
              0%nat (mkLabel "Account" false " Account" "block") eq_refl)
    as [label' [Hk [_ [_ [_ [_ Hshown]]]]]].
  specialize (Hshown eq_refl). simpl in Hk. injection Hk as <-. reflexivity.
Defined.

(* ------------------------------------------------------------------ *)
(** ** Quick Find, again                                                *)
(* ------------------------------------------------------------------ *)

Lemma filterRow_overwrites (query query' : string) (row : Row) :
  filterRow query' (filterRow query row) = filterRow query' row.
Proof.
  unfold filterRow. destruct (List.length (cells row) <? 3)%nat eqn:L; [now rewrite L |].
  cbn [set_display cells]. now rewrite L.
Qed.

(** X16.  Filtering writes the visibility of the rows of at least three
    cells and nothing else: cells, annotation, flag and title of every
    row, the rows of fewer cells, the messages and the console stay as
    they are.  The visibility depends on the last input alone: filtering
    after filtering is filtering once, so emptying the box shows every
    row of at least three cells again. *)
Theorem quickFind_last_input_wins (value value' : string) (p : Page) :
  onQuickFindInput value' (onQuickFindInput value p) = onQuickFindInput value' p /\
  sent (onQuickFindInput value p) = sent p /\
  pending (onQuickFindInput value p) = pending p /\
  console (onQuickFindInput value p) = console p /\
  (forall i row,
     rowAt i p = Some row ->
     exists row',
       rowAt i (onQuickFindInput value p) = Some row' /\
       cells row' = cells row /\ picklistText row' = picklistText row /\
       picklistFetched row' = picklistFetched row /\ title row' = title row /\
       ((List.length (cells row) < 3)%nat -> row' = row)) /\
  (forall i row,
     rowAt i (onQuickFindInput "" (onQuickFindInput value p)) = Some row ->
     (3 <= List.length (cells row))%nat ->
     visible row = true).
Proof.
  split; [| split; [| split; [| split; [| split]]]];
    try apply onQuickFindInput_channel.
  - unfold onQuickFindInput. destruct (tableBody p) as [rows|] eqn:T; simpl; [| now rewrite T].
    unfold set_tableBody. simpl. do 2 f_equal. rewrite map_map.
    apply map_ext. intros row. apply filterRow_overwrites.
  - intros i row Hi. rewrite rowAt_onQuickFindInput, Hi. simpl.
    eexists. split; [reflexivity |].
    destruct (filterRow_keeps (Js.toLowerCase (Js.trim value)) row) as [H1 [H2 [H3 H4]]].
    repeat split; try assumption.
    intros Hlt. unfold filterRow. apply Nat.ltb_lt in Hlt. now rewrite Hlt.
  - intros i row Hi Hcells.
    rewrite !rowAt_onQuickFindInput in Hi.
    destruct (rowAt i p) as [r|]; [| discriminate]. simpl in Hi. injection Hi as <-.
    rewrite filterRow_overwrites in *.
    rewrite (proj1 (filterRow_keeps _ r)) in Hcells.
    now rewrite (visible_filterRow _ _ Hcells).
Qed.

Lemma quickFind_last_input_wins_witness :
  exists row',
    rowAt 0 (onQuickFindInput "zz" abPage) = Some row' /\ cells row' = ["ab"; "x"; "y"].
Proof.
  destruct (proj1 (proj2 (proj2 (proj2 (proj2 (quickFind_last_input_wins "zz" "" abPage)))))
              0%nat abRow eq_refl) as [row' [Hrow [Hcells _]]].
  exists row'. now split.
Defined.






(* ------------------------------------------------------------------ *)
(** ** Scrolling                                                        *)
(* ------------------------------------------------------------------ *)

(** X18.  [findScrollableParent] returns the nearest ancestor whose
    vertical overflow is "auto" or "scroll" and whose content is higher
    than its box; an ancestor that could scroll but whose content fits is
    passed over.  It returns nothing exactly when no ancestor below the
    root element is such. *)
Theorem findScrollableParent_nearest (ancestors : list Element) :
  match findScrollableParent ancestors with
  | Some parent =>
      exists k,
        nth_error ancestors k = Some parent /\
        (overflowY parent = "auto" \/ overflowY parent = "scroll") /\
        (clientHeight parent < scrollHeight parent)%Z /\
        forall j e, (j < k)%nat -> nth_error ancestors j = Some e -> scrolls e = false
  | None => forall e, In e ancestors -> scrolls e = false
  end.
Proof.
  induction ancestors as [|parent rest IH]; simpl; [intros e [] |].
  destruct (scrolls parent) eqn:Hs.
  - exists 0%nat. split; [reflexivity |].
    unfold scrolls in Hs. apply andb_true_iff in Hs. destruct Hs as [S1 S2].
    apply orb_true_iff in S1. rewrite !String.eqb_eq in S1. apply Z.ltb_lt in S2.
    repeat split; try assumption. intros j e Hj. lia.
  - destruct (findScrollableParent rest) as [found|].
    + destruct IH as [k [Hk [Ho [Hh Hbefore]]]].
      exists (S k). repeat split; try assumption.
      intros [|j] e Hj He; simpl in He.
      * now injection He as <-.
      * apply (Hbefore j e); [lia | exact He].
    + intros e [<- | He]; [exact Hs | now apply IH].
Qed.

(** X19.  [autoScrollAndWait] goes on exactly as long as every height
    it reads is greater than the one before.  On a page whose height
    never exceeds [H] it resolves, after at most [H - lastHeight + 1]
    scrolls to the bottom. *)
Theorem autoScrollAndWait_ends (lastHeight H : Z) (observed : list Z) :
  (autoScrollAndWait lastHeight observed = None <->
   Sorted Z.lt (lastHeight :: observed)) /\
  ((lastHeight <= H)%Z ->
   Forall (fun h => (h <= H)%Z) observed ->
   (H - lastHeight < Z.of_nat (List.length observed))%Z ->
   exists n,
     autoScrollAndWait lastHeight observed = Some n /\
     (1 <= n)%nat /\ (Z.of_nat n <= H - lastHeight + 1)%Z).
Proof.
  split.
  - revert lastHeight. induction observed as [|h rest IH]; intros lastHeight; simpl.
    + split; [intros _; repeat constructor | reflexivity].
    + destruct (Z.ltb_spec lastHeight h) as [Hlt | Hge].
      * specialize (IH h). split.
        -- intros E. destruct (autoScrollAndWait h rest); [discriminate |].
           constructor; [now apply IH | now constructor].
        -- intros Hs. inversion Hs as [|a l Hrest _]; subst.
           apply IH in Hrest. now rewrite Hrest.
      * split; [discriminate |].
        intros Hs. inversion Hs as [|a l _ Hhd]; subst.
        inversion Hhd; subst. lia.
  - revert lastHeight. induction observed as [|h rest IH]; intros lastHeight Hle Hall Hlen.
    + simpl in Hlen. lia.
    + inversion Hall as [|x l Hh Hrest]; subst. cbn [autoScrollAndWait].
      destruct (Z.ltb_spec lastHeight h) as [Hlt | Hge].
      * destruct (IH h Hh Hrest) as [n [Hn [H1 H2]]].
        { cbn [List.length] in Hlen. lia. }
        exists (S n). rewrite Hn. simpl. repeat split; lia.
      * exists 1%nat. repeat split; lia.
Qed.

Lemma autoScrollAndWait_ends_witness :
  exists n, autoScrollAndWait 600 [601; 602; 602]%Z = Some n /\ (Z.of_nat n <= 3)%Z.
Proof.
  destruct (proj2 (autoScrollAndWait_ends 600 602 [601; 602; 602]%Z))
    as [n [Hn [_ Hle]]].
  - lia.
  - repeat constructor; lia.
  - simpl. lia.
  - exists n. split; [exact Hn | lia].
Defined.

(* ------------------------------------------------------------------ *)
(** ** Setting up Quick Find                                            *)
(* ------------------------------------------------------------------ *)

(** X20.  [setupCustomQuickFind] replaces an attached search input that
    is not customised yet by a clone with the id "customQuickFind" on
    which [onQuickFindInput] listens once; called again on the input that
    is then in the page, it changes nothing but the console.  It never
    leaves more than one export button where there was at most one, and
    adds none on the home page. *)
Theorem setupCustomQuickFind_once (home : bool) (d : SearchBox) :
  let d1 := setupCustomQuickFind home (box_input d) d in
  let d2 := setupCustomQuickFind home (box_input d1) d1 in
  box_input d2 = box_input d1 /\
  box_buttons d2 = box_buttons d1 /\
  (forall input,
     box_input d = Some input ->
     input_attached input = true ->
     input_customized input <> Some "true" ->
     box_input d1 = Some (mkInput "customQuickFind" (Some "true") true 1)) /\
  (forall input,
     box_input d = Some input ->
     input_customized input = Some "true" ->
     box_input d1 = Some input) /\
  ((box_buttons d <= 1)%nat -> (box_buttons d1 <= 1)%nat) /\
  (home = true -> box_buttons d1 = box_buttons d).
Proof.
  assert (Hclose : forall (P : Prop) (input input' : SearchInput),
            Some input = Some input' -> (input = input' -> P) -> P).
  { intros P input input' [= ->] H. now apply H. }
  destruct d as [[[id customized attached listeners]|] buttons log];
    cbv zeta; unfold setupCustomQuickFind, addInlineExportButton; cbn [box_input].
  - destruct attached; cbn [input_attached negb].
    + cbn [input_customized]. destruct customized as [v|].
      * destruct (String.eqb_spec v "true") as [-> | Hv].
        -- cbn. repeat split; try congruence.
           intros input [= <-] _ H. now contradiction H.
        -- destruct home, buttons as [|[|n]]; cbn;
             repeat split; intros; try reflexivity; try lia; try discriminate;
             match goal with
             | H : Some _ = Some _ |- _ =>
                 apply (Hclose _ _ _ H); intros <-; cbn in *; congruence
             end.
      * destruct home, buttons as [|[|n]]; cbn;
          repeat split; intros; try reflexivity; try lia; try discriminate;
          match goal with
          | H : Some _ = Some _ |- _ =>
              apply (Hclose _ _ _ H); intros <-; cbn in *; congruence
          end.
    + cbn. repeat split; intros; try reflexivity; try lia;
        match goal with
        | H : Some _ = Some _ |- _ =>
            apply (Hclose _ _ _ H); intros <-; cbn in *; congruence
        end.
  - cbn. repeat split; intros; congruence.
Qed.

Lemma setupCustomQuickFind_once_witness :
  box_input (setupCustomQuickFind false (Some (mkInput "input-7" None true 0))
               (mkBox (Some (mkInput "input-7" None true 0)) 0 []))
  = Some (mkInput "customQuickFind" (Some "true") true 1).
Proof.
  apply (proj1 (proj2 (proj2 (setupCustomQuickFind_once false
                                (mkBox (Some (mkInput "input-7" None true 0)) 0 []))))
               (mkInput "input-7" None true 0)).
  - reflexivity.
  - reflexivity.
  - discriminate.
Defined.

(* ------------------------------------------------------------------ *)
(** ** From the response to the export                                  *)
(* ------------------------------------------------------------------ *)

(** X21.  What the provider returns for a row is what the export of the
    current object prints for it: after a successful response to the
    request outstanding for a row, the line exported for that row has
    the returned text, trimmed, in its last cell, after the trimmed
    label and API name and the mapped type. *)
Theorem fetched_values_are_exported
  (p : Page) (m : Message) (row : nat) (fieldApiName : string) (data err : option string) :
  reachable p ->
  In (m, picklistCallback row fieldApiName) (pending p) ->
  let q := onPicklistResponse row fieldApiName (Some (mkPicklist true data err)) p in
  exists r r',
    rowAt row p = Some r /\ rowAt row q = Some r' /\ cells r' = cells r /\
    ((3 <= List.length (cells r))%nat ->
     currentRow r'
     = [[text (Js.trim (cell 0 r)); text (Js.trim (cell 1 r));
         text (mapFieldTypeForExport (Js.trim (cell 2 r)) (Some 500%N));
         text (Js.trim match data with Some t => t | None => "" end)]]).
Proof.
  intros Hreach Hin q.
  destruct (reachable_consistent p Hreach row) as [_ [_ H3]].
  destruct (H3 (pending_request row m fieldApiName _ Hin)) as [r [Hrow _]].
  pose proof (onPicklistResponse_success_rowAt row fieldApiName data err p row) as Hq.
  fold q in Hq. rewrite Hrow, Nat.eqb_refl in Hq. simpl in Hq.
  set (t := match data with Some t => t | None => "" end) in *.
  set (r1 := set_title (Some t) (set_picklistText t r)) in *.
  assert (Hc1 : cells r1 = cells r).
  { unfold r1, set_title. cbn [cells set_picklistText].
    destruct (cells r) eqn:E; cbn; congruence. }
  assert (Ha1 : annotation r1 = t) by apply annotation_set.
  eexists r, _. split; [exact Hrow | split; [exact Hq | split]].
  - destruct (customQuickFind p); [rewrite (proj1 (filterRow_keeps _ r1)) |]; exact Hc1.
  - intros Hcells. unfold currentRow, cell.
    destruct (customQuickFind p) as [value|].
    + rewrite annotation_filterRow, (proj1 (filterRow_keeps _ r1)), Hc1, Ha1.
      apply Nat.ltb_ge in Hcells. now rewrite Hcells.
    + rewrite Hc1, Ha1. apply Nat.ltb_ge in Hcells. now rewrite Hcells.
Qed.

Lemma fetched_values_are_exported_witness :
  exists r',
    rowAt 0 (onPicklistResponse 0 "Status__c"
               (Some (mkPicklist true (Some " Active;Inactive ") None))
               (processPicklistRows None picklistPage)) = Some r' /\
    currentRow r'
    = [[text "Status"; text "Status__c"; text "Picklist"; text "Active;Inactive"]].
Proof.
  destruct (fetched_values_are_exported
              (processPicklistRows None picklistPage)
              (fetchPicklistValues "Account" "Status__c"
                                   "https://example.my.salesforce.com" false)
              0 "Status__c" (Some " Active;Inactive ") None)
    as [r [r' [Hr [Hr' [_ Hline]]]]].
  - apply (reach_event picklistPage); [| apply ev_process].
    apply reach_initial. repeat split. repeat constructor.
  - simpl. left. reflexivity.
  - exists r'. split; [exact Hr' |].
    simpl in Hr. injection Hr as <-. apply Hline. simpl. lia.
Defined.

Lemma findScrollableParent_nearest_witness :
  exists k,
    nth_error [mkElement "auto" 400 400; mkElement "scroll" 2400 600] k
    = Some (mkElement "scroll" 2400 600) /\
    (overflowY (mkElement "scroll" 2400 600) = "auto"
     \/ overflowY (mkElement "scroll" 2400 600) = "scroll") /\
    (clientHeight (mkElement "scroll" 2400 600) < scrollHeight (mkElement "scroll" 2400 600))%Z /\
    forall j e, (j < k)%nat ->
                nth_error [mkElement "auto" 400 400; mkElement "scroll" 2400 600] j = Some e ->
                scrolls e = false.
Proof.
  exact (findScrollableParent_nearest [mkElement "auto" 400 400; mkElement "scroll" 2400 600]).
Defined.
